(** * onos-config: typed values, snapshot identifiers and the diagnostic
      streaming service

    A shallow embedding of
    - [pkg/types/snapshot/device/types.go]  (module [Snapshot]),
    - the gNMI value codec exercised by the package [values] tests
      (module [Values]),
    - [pkg/northbound/diags/diags.go]       (module [Diags]),
    together with the properties stated about them. *)

From Stdlib Require Import ZArith String Ascii.
From stdpp Require Import base option list strings gmap.

Local Open Scope string_scope.
Local Open Scope Z_scope.

(** ** Go runtime helpers shared by the modules *)

Module Go.

(** [strings.HasPrefix(s, prefix)] *)
Fixpoint HasPrefix (s pre : string) {struct pre} : bool :=
  match pre with
  | EmptyString => true
  | String c pre' =>
      match s with
      | EmptyString => false
      | String d s' => if Ascii.eqb c d then HasPrefix s' pre' else false
      end
  end.

(** [strings.Index(s, substr)]: the byte index of the first instance of
    [substr] in [s], or [-1] when there is none. *)
Fixpoint Index (s substr : string) : Z :=
  if HasPrefix s substr then 0
  else match s with
       | EmptyString => -1
       | String _ s' =>
           let i := Index s' substr in
           if i <? 0 then -1 else i + 1
       end.

(** [len(s)] *)
Definition len (s : string) : Z := Z.of_nat (String.length s).

Fixpoint drop_bytes (n : nat) (s : string) : string :=
  match n, s with
  | O, _ => s
  | S _, EmptyString => EmptyString
  | S n', String _ s' => drop_bytes n' s'
  end.

(** The slice expression [s[k:]].  It panics (here: [None]) when [k] is
    negative or exceeds [len(s)]. *)
Definition slice_from (s : string) (k : Z) : option string :=
  if (k <? 0) || (len s <? k) then None
  else Some (drop_bytes (Z.to_nat k) s).

(** An [error] value is carried by its message. *)
Definition error := string.

End Go.

(** ** pkg/types/snapshot/device/types.go *)

Module Snapshot.

(** [const separator = ":"] *)
Definition separator : string := ":".

(** [type ID types.ID], and the identifiers it is built from, are all
    strings. *)
Definition ID := string.

(** [fmt.Sprintf("%s%s%s", networkID, separator, deviceID)] *)
Definition GetSnapshotID (networkID deviceID : string) : ID :=
  networkID ++ separator ++ deviceID.

(** [device.ID(string(i)[strings.Index(string(i), separator)+1:])] *)
Definition GetDeviceID (i : ID) : option string :=
  Go.slice_from i (Go.Index i separator + 1).

(** A string holds the separator character. *)
Definition has_separator (s : string) : Prop :=
  In ":"%char (list_ascii_of_string s).

End Snapshot.

(** ** The gNMI wire value (external: [github.com/openconfig/gnmi]) *)

Module Gnmi.

(** Float payloads are carried as their IEEE-754 bit pattern; the codec
    only copies them. *)
Definition Float := Z.

(** The scalar alternatives of the [gnmi.TypedValue] oneof, named as the
    tests build them. *)
Inductive Scalar : Type :=
| TypedValue_StringVal (StringVal : string)
| TypedValue_IntVal (IntVal : Z)
| TypedValue_UintVal (UintVal : Z)
| TypedValue_BoolVal (BoolVal : bool)
| TypedValue_BytesVal (BytesVal : list Byte.byte)
| TypedValue_FloatVal (FloatVal : Float)
| TypedValue_DecimalVal (Digits : Z) (Precision : Z)
| TypedValue_AsciiVal (AsciiVal : string).

(** A wire value: a scalar, a [ScalarArray] of scalars, the explicit
    empty value, or an alternative the codec does not know (carried by its
    oneof tag). *)
Inductive TypedValue : Type :=
| Value (s : Scalar)
| TypedValue_LeaflistVal (Element : list Scalar)
| TypedValue_AnyVal
| TypedValue_Other (tag : Z).

End Gnmi.

(** ** The typed value model and its codec (package [values]) *)

Module Values.

(** [devicechange.Width]: a [uint8]; the declared widths. *)
Definition Width := Z.
Definition WidthEight : Width := 8.
Definition WidthSixteen : Width := 16.
Definition WidthThirtyTwo : Width := 32.
Definition WidthSixtyFour : Width := 64.

(** [devicechange.ValueType]: the type tags the tests name. *)
Inductive ValueType : Type :=
| ValueType_EMPTY
| ValueType_STRING
| ValueType_INT
| ValueType_UINT
| ValueType_BOOL
| ValueType_DECIMAL
| ValueType_FLOAT
| ValueType_BYTES
| ValueType_LEAFLIST_STRING
| ValueType_LEAFLIST_INT
| ValueType_LEAFLIST_UINT
| ValueType_LEAFLIST_BOOL
| ValueType_LEAFLIST_DECIMAL
| ValueType_LEAFLIST_FLOAT
| ValueType_LEAFLIST_BYTES
| ValueType_other (tag : Z).

(** The element kinds a value or a leaf-list can have. *)
Inductive Kind : Type :=
| KString | KInt | KUint | KBool | KDecimal | KFloat | KBytes.

Definition Kind_eqb (a b : Kind) : bool :=
  match a, b with
  | KString, KString | KInt, KInt | KUint, KUint | KBool, KBool
  | KDecimal, KDecimal | KFloat, KFloat | KBytes, KBytes => true
  | _, _ => false
  end.

(** Modelled from the spec: the scalar variants of [devicechange.TypedValue]
    (section 3: String, Ascii, Int and Uint with a width, Bool, Bytes,
    Float, Decimal with digits and precision).  Ascii is the wire-distinct
    alias of String: the same native representation (same kind, same type
    tag), remembered only so that the encoder can choose the wire tag by the
    constructor that built the value (section 4.1).  The declaration is not
    among the sources. *)
Inductive Scalar : Type :=
| TypedString (s : string)
| TypedAscii (s : string)
| TypedInt (v : Z) (width : Width)
| TypedUint (v : Z) (width : Width)
| TypedBool (b : bool)
| TypedDecimal (digits : Z) (precision : Z)
| TypedFloat (f : Gnmi.Float)
| TypedBytes (bs : list Byte.byte).

(** Modelled from the spec: [devicechange.TypedValue] as the tagged union of
    section 3: the empty value, a scalar, a leaf-list of scalars under one
    declared element kind, and (what [Test_errors] builds by overwriting the
    tag) a value whose tag is outside the declared set, with its raw
    bytes. *)
Inductive TypedValue : Type :=
| NewTypedValueEmpty
| Leaf (s : Scalar)
| Leaflist (k : Kind) (elems : list Scalar)
| Untyped (tag : Z) (bytes : list Byte.byte).

Definition NewTypedValueString (s : string) := Leaf (TypedString s).
Definition NewTypedValueAscii (s : string) := Leaf (TypedAscii s).
Definition NewTypedValueInt (v : Z) (w : Width) := Leaf (TypedInt v w).
Definition NewTypedValueUint (v : Z) (w : Width) := Leaf (TypedUint v w).
Definition NewTypedValueBool (b : bool) := Leaf (TypedBool b).

Definition kindOf (s : Scalar) : Kind :=
  match s with
  | TypedString _ => KString
  | TypedAscii _ => KString
  | TypedInt _ _ => KInt
  | TypedUint _ _ => KUint
  | TypedBool _ => KBool
  | TypedDecimal _ _ => KDecimal
  | TypedFloat _ => KFloat
  | TypedBytes _ => KBytes
  end.

(** The [Type] field of a typed value. *)
Definition Type_ (v : TypedValue) : ValueType :=
  match v with
  | NewTypedValueEmpty => ValueType_EMPTY
  | Leaf s =>
      match kindOf s with
      | KString => ValueType_STRING | KInt => ValueType_INT
      | KUint => ValueType_UINT | KBool => ValueType_BOOL
      | KDecimal => ValueType_DECIMAL | KFloat => ValueType_FLOAT
      | KBytes => ValueType_BYTES
      end
  | Leaflist k _ =>
      match k with
      | KString => ValueType_LEAFLIST_STRING | KInt => ValueType_LEAFLIST_INT
      | KUint => ValueType_LEAFLIST_UINT | KBool => ValueType_LEAFLIST_BOOL
      | KDecimal => ValueType_LEAFLIST_DECIMAL | KFloat => ValueType_LEAFLIST_FLOAT
      | KBytes => ValueType_LEAFLIST_BYTES
      end
  | Untyped tag _ => ValueType_other tag
  end.

(** The width metadata an integer value reports. *)
Definition widthOfScalar (s : Scalar) : option Width :=
  match s with
  | TypedInt _ w | TypedUint _ w => Some w
  | _ => None
  end.

(** [modelregistry.ReadWritePathElem], as the tests fill it: the expected
    value type and its options (the first option of an integer is its
    width). *)
Record ReadWritePathElem : Type := {
  ValueType_ : ValueType;
  TypeOpts : list Z
}.

(** Modelled from the spec: the decode errors (sections 4.1 and 7). *)
Inductive DecodeError : Type :=
| UnsupportedWireType (tag : Z)
| EmptyLeaflist
| MixedLeaflist.

(** Modelled from the spec: the encode errors (sections 4.1 and 7), with the
    messages [Test_errors] expects. *)
Inductive EncodeError : Type :=
| InvalidLength (n : Z)      (* "invalid TypedValue Length %d" *)
| UnsupportedType (tag : Z). (* "Unsupported type %d" *)

(** A Go result pair [(value, err)] in which exactly one side is set. *)
Inductive result (A E : Type) : Type :=
| Ok (a : A)
| Err (e : E).
Arguments Ok {A E} a.
Arguments Err {A E} e.

(** The value side of a result pair: [None] is Go's [nil]. *)
Definition valueOf {A E} (r : result A E) : option A :=
  match r with Ok a => Some a | Err _ => None end.

Definition andThen {A B E} (r : result A E) (f : A -> result B E) : result B E :=
  match r with Ok a => f a | Err e => Err e end.

Fixpoint traverse {A B E} (f : A -> result B E) (l : list A) : result (list B) E :=
  match l with
  | [] => Ok []
  | a :: l' => andThen (f a) (fun b => andThen (traverse f l') (fun bs => Ok (b :: bs)))
  end.

(** Modelled from the spec: the width a decoded integer gets (section 4.1):
    the widest one without a hint, the hint's width otherwise. *)
Definition hintWidth (modelPath : option ReadWritePathElem) : Width :=
  match modelPath with
  | Some pe => match TypeOpts pe with w :: _ => w | [] => WidthSixtyFour end
  | None => WidthSixtyFour
  end.

(** Modelled from the spec: decoding one wire scalar (section 4.1).  The
    numeric value is the wire payload, the width comes from the hint;
    digits and precision are kept as they are; string and ascii decode to
    the same native value. *)
Definition scalarToNative (g : Gnmi.Scalar) (modelPath : option ReadWritePathElem) : Scalar :=
  match g with
  | Gnmi.TypedValue_StringVal s => TypedString s
  | Gnmi.TypedValue_AsciiVal s => TypedString s
  | Gnmi.TypedValue_IntVal v => TypedInt v (hintWidth modelPath)
  | Gnmi.TypedValue_UintVal v => TypedUint v (hintWidth modelPath)
  | Gnmi.TypedValue_BoolVal b => TypedBool b
  | Gnmi.TypedValue_BytesVal bs => TypedBytes bs
  | Gnmi.TypedValue_FloatVal f => TypedFloat f
  | Gnmi.TypedValue_DecimalVal d p => TypedDecimal d p
  end.

(** Modelled from the spec: decoding a leaf-list (section 4.1): every
    element by the scalar rules, one element kind per list (the kind of
    the first element). *)
Definition handleLeafList (elems : list Gnmi.Scalar) (modelPath : option ReadWritePathElem)
  : result TypedValue DecodeError :=
  match elems with
  | [] => Err EmptyLeaflist
  | g :: _ =>
      let k := kindOf (scalarToNative g modelPath) in
      let natives := map (fun e => scalarToNative e modelPath) elems in
      if forallb (fun n => Kind_eqb (kindOf n) k) natives
      then Ok (Leaflist k natives)
      else Err MixedLeaflist
  end.

(** Modelled from the spec: [GnmiTypedValueToNativeType], the decoder
    (sections 4.1 and 7); the function is not among the sources, only its
    tests are. *)
Definition GnmiTypedValueToNativeType (gnmiTv : Gnmi.TypedValue)
    (modelPath : option ReadWritePathElem) : result TypedValue DecodeError :=
  match gnmiTv with
  | Gnmi.Value g => Ok (Leaf (scalarToNative g modelPath))
  | Gnmi.TypedValue_LeaflistVal elems => handleLeafList elems modelPath
  | Gnmi.TypedValue_AnyVal => Ok NewTypedValueEmpty
  | Gnmi.TypedValue_Other tag => Err (UnsupportedWireType tag)
  end.

(** Modelled from the spec: encoding one scalar (section 4.1): a Bytes
    value of length zero is refused, integers are re-widened to the wire's
    64 bits, and the wire tag of a text is chosen by the constructor that
    built the value: string for String, ascii for Ascii. *)
Definition scalarToGnmi (s : Scalar) : result Gnmi.Scalar EncodeError :=
  match s with
  | TypedString s => Ok (Gnmi.TypedValue_StringVal s)
  | TypedAscii s => Ok (Gnmi.TypedValue_AsciiVal s)
  | TypedInt v _ => Ok (Gnmi.TypedValue_IntVal v)
  | TypedUint v _ => Ok (Gnmi.TypedValue_UintVal v)
  | TypedBool b => Ok (Gnmi.TypedValue_BoolVal b)
  | TypedDecimal d p => Ok (Gnmi.TypedValue_DecimalVal d p)
  | TypedFloat f => Ok (Gnmi.TypedValue_FloatVal f)
  | TypedBytes bs =>
      match bs with
      | [] => Err (InvalidLength 0)
      | _ :: _ => Ok (Gnmi.TypedValue_BytesVal bs)
      end
  end.

(** Modelled from the spec: [NativeTypeToGnmiTypedValue], the encoder
    (sections 4.1 and 7); the function is not among the sources, only its
    tests are. *)
Definition NativeTypeToGnmiTypedValue (typedValue : TypedValue)
  : result Gnmi.TypedValue EncodeError :=
  match typedValue with
  | NewTypedValueEmpty => Ok Gnmi.TypedValue_AnyVal
  | Leaf s => andThen (scalarToGnmi s) (fun g => Ok (Gnmi.Value g))
  | Leaflist _ elems =>
      andThen (traverse scalarToGnmi elems) (fun gs => Ok (Gnmi.TypedValue_LeaflistVal gs))
  | Untyped tag _ => Err (UnsupportedType tag)
  end.

(** *** Which values the round trip is about *)














(** *** The wire values the tests use *)

Definition intListTestValue : Gnmi.TypedValue :=
  Gnmi.TypedValue_LeaflistVal
    [Gnmi.TypedValue_IntVal 100; Gnmi.TypedValue_IntVal 101;
     Gnmi.TypedValue_IntVal 102; Gnmi.TypedValue_IntVal 103].

Definition bytesLeafTestValue : Gnmi.TypedValue :=
  Gnmi.Value (Gnmi.TypedValue_BytesVal [Byte.x61; Byte.x62; Byte.x63]).

Definition decimalLeafTestValue : Gnmi.TypedValue :=
  Gnmi.Value (Gnmi.TypedValue_DecimalVal 1234 2).

Definition asciiLeafTestValue : Gnmi.TypedValue :=
  Gnmi.Value (Gnmi.TypedValue_AsciiVal "ascii").

Definition asciiListTestValue : Gnmi.TypedValue :=
  Gnmi.TypedValue_LeaflistVal
    [Gnmi.TypedValue_AsciiVal "abc"; Gnmi.TypedValue_AsciiVal "def";
     Gnmi.TypedValue_AsciiVal "ghi"; Gnmi.TypedValue_AsciiVal "jkl"].

Definition testNegativeInt : Z := -9223372036854775808.

(** The hint of [Test_GnmiIntToNative]: an INT of width 32. *)
Definition int32PathElem : ReadWritePathElem :=
  {| ValueType_ := ValueType_INT; TypeOpts := [WidthThirtyTwo] |}.

End Values.

(** ** pkg/northbound/diags/diags.go and what it calls *)

Module Diags.
Import Go.

(** *** Messages *)

(** [admin.Type] *)
Inductive admin_Type : Type := Type_NONE | Type_ADDED | Type_UPDATED | Type_REMOVED.

(** [devicechangetypes.PathValue] *)
Record PathValue : Type := {
  Path : string;
  Value : Values.TypedValue;
  Removed : bool
}.

Record OpStateRequest : Type := {
  DeviceId : string;
  OpStateRequest_Subscribe : bool
}.

Record OpStateResponse : Type := {
  Type_ : admin_Type;
  Pathvalue : PathValue
}.

(** Modelled from the spec: the phase of a network change (section 3). *)
Inductive Phase : Type :=
| PENDING | APPLYING | APPLIED | FAILED | ROLLING_BACK | ROLLED_BACK.

(** Modelled from the spec: [networkchangetypes.NetworkChange] (section 3);
    the handlers read its [ID] only. *)
Record NetworkChange : Type := {
  NetworkChange_ID : string;
  Refs : list string;
  NetworkChange_Phase : Phase
}.

(** Modelled from the spec: [devicechangetypes.DeviceChange] (section 3). *)
Record DeviceChange : Type := {
  DeviceChange_ID : string;
  DeviceID : string;
  DeviceVersion : string;
  Values : list PathValue
}.

Record ListNetworkChangeRequest : Type := {
  ChangeID : string;
  ListNetworkChangeRequest_Subscribe : bool;
  ListNetworkChangeRequest_WithoutReplay : bool
}.

Record ListNetworkChangeResponse : Type := {
  ListNetworkChangeResponse_Change : NetworkChange
}.

Record ListDeviceChangeRequest : Type := {
  ListDeviceChangeRequest_DeviceID : string;
  ListDeviceChangeRequest_DeviceVersion : string;
  ListDeviceChangeRequest_Subscribe : bool;
  ListDeviceChangeRequest_WithoutReplay : bool
}.

Record ListDeviceChangeResponse : Type := {
  ListDeviceChangeResponse_Change : DeviceChange
}.

(** *** The outbound gRPC stream *)

(** A server stream: its address (what [%p] prints), the messages sent so
    far, and what the transport answers to the coming sends ([None]: the
    message goes out; [Some err]: the send fails with [err]).  Once the
    answers are used up every send goes out. *)
Record Stream (M : Type) : Type := {
  addr : string;
  sent : list M;
  failures : list (option error)
}.
Arguments addr {M} _.
Arguments sent {M} _.
Arguments failures {M} _.

(** [stream.Send(msg)] / [stream.SendMsg(msg)] *)
Definition Send {M} (stream : Stream M) (msg : M) : Stream M * option error :=
  match failures stream with
  | Some err :: rest =>
      ({| addr := addr stream; sent := sent stream; failures := rest |}, Some err)
  | None :: rest =>
      ({| addr := addr stream; sent := sent stream ++ [msg]; failures := rest |}, None)
  | [] =>
      ({| addr := addr stream; sent := sent stream ++ [msg]; failures := [] |}, None)
  end.

(** The transport fails none of the coming sends. *)
Definition healthy {M} (stream : Stream M) : bool :=
  forallb (fun f => match f with None => true | Some _ => false end) (failures stream).

(** How far a handler got on the part of the run that is given: it
    returned (with Go's [error], [None] for [nil]), or it is still waiting
    in its [select]. *)
Inductive Outcome : Type :=
| Returned (err : option error)
| Blocked.

(** Which case of a two-way [select] fires: the receive from the channel,
    or [<-stream.Context().Done()]. *)
Inductive Select : Type := SelectRecv | SelectDone.

(** *** The wildcard matcher ([utils.MatchWildcardChNameRegexp]) *)

(** Modelled from the spec: the pieces of a translated glob pattern
    (section 4.2): the multi-character wildcard and the literal characters. *)
Inductive Token : Type := Wildcard | Literal (c : ascii).

(** The compiled matcher. *)
Definition Regexp := list Token.

(** Modelled from the spec: the translation of a glob pattern (section 4.2),
    ['*'] to the wildcard, any other character to itself. *)
Fixpoint translate (query : string) : list Token :=
  match query with
  | EmptyString => []
  | String c rest =>
      (if Ascii.eqb c "*" then Wildcard else Literal c) :: translate rest
  end.

(** Modelled from the spec: [utils.MatchWildcardChNameRegexp] (section 4.2):
    the glob pattern is translated into a matcher, anchored at both ends,
    in which ['*'] stands for any run of characters.  The function is not
    among the sources. *)
Definition MatchWildcardChNameRegexp (query : string) : Regexp := translate query.

(** Modelled from the spec: [matcher.MatchString(s)] on such a matcher
    (section 4.2): the whole of [s] has to match. *)
Fixpoint MatchString (re : Regexp) : string -> bool :=
  match re with
  | [] => fun s => match s with EmptyString => true | String _ _ => false end
  | Literal c :: re' =>
      fun s => match s with
               | EmptyString => false
               | String d s' => Ascii.eqb c d && MatchString re' s'
               end
  | Wildcard :: re' =>
      fix star (s : string) : bool :=
        MatchString re' s
        || match s with
           | EmptyString => false
           | String _ s' => star s'
           end
  end.

(** Modelled from the spec: what anchored glob matching means (section 4.2):
    the whole string is consumed, a literal by itself, a wildcard by any run
    of characters. *)
Inductive Matches : Regexp -> string -> Prop :=
| Matches_nil : Matches [] ""
| Matches_literal c re s : Matches re s -> Matches (Literal c :: re) (String c s)
| Matches_wildcard re u s : Matches re s -> Matches (Wildcard :: re) (u ++ s).

(** *** The change stores ([pkg/store/change/network], [.../device]) *)

(** Modelled from the spec: the kind of a change event (section 4.2: created
    or updated). *)
Inductive EventType : Type := Created | Updated.

(** Modelled from the spec: [streams.Event], a change with its event kind
    (section 4.2); the handlers read its [Object] only. *)
Record Event (A : Type) : Type := {
  Event_Type : EventType;
  Object : A
}.
Arguments Event_Type {A} _.
Arguments Object {A} _.

(** The watch options the handlers build: [network.WithReplay()],
    [device.WithReplay()]. *)
Inductive WatchOption : Type := WithReplay.

Definition replayEnabled (opts : list WatchOption) : bool :=
  existsb (fun o => match o with WithReplay => true end) opts.

(** Modelled from the spec: a change log (section 4.2): its records in
    creation order.  Beside them, the number of stream contexts open on
    it, and whether the store answers at all ([Some err]: [Watch] and
    [List] return [err]). *)
Record Store (A : Type) : Type := {
  records : list A;
  openContexts : nat;
  unavailable : option error
}.
Arguments records {A} _.
Arguments openContexts {A} _.
Arguments unavailable {A} _.

Definition openContext {A} (store : Store A) : Store A :=
  {| records := records store;
     openContexts := S (openContexts store);
     unavailable := unavailable store |}.

(** [ctx.Close()] *)
Definition Close {A} (store : Store A) : Store A :=
  {| records := records store;
     openContexts := pred (openContexts store);
     unavailable := unavailable store |}.

(** Modelled from the spec: [Store.Watch] (section 4.2).  The channel
    carries, when replay is asked for, the records present at subscription
    in creation order, and then the events [later] that occur afterwards;
    [select] restricts both to the key of the watch.  The store is not
    among the sources. *)
Definition Watch {A} (store : Store A) (select : A -> bool)
    (opts : list WatchOption) (later : list (Event A))
  : Store A * Values.result (list (Event A)) error :=
  match unavailable store with
  | Some err => (store, Values.Err err)
  | None =>
      let replay :=
        if replayEnabled opts
        then map (fun c => {| Event_Type := Created; Object := c |})
                 (List.filter select (records store))
        else [] in
      (openContext store,
       Values.Ok (replay ++ List.filter (fun ev => select (Object ev)) later)%list)
  end.

(** Modelled from the spec: [Store.List] (section 4.2): the records of the
    key in creation order, then the channel is closed. *)
Definition List {A} (store : Store A) (select : A -> bool)
  : Store A * Values.result (list A) error :=
  match unavailable store with
  | Some err => (store, Values.Err err)
  | None => (openContext store, Values.Ok (List.filter select (records store)))
  end.

(** Modelled from the spec: [devicetype.NewVersionedID] and the exact match
    of a device change against it (sections 3 and 4.2). *)
Definition NewVersionedID (deviceID version : string) : string * string :=
  (deviceID, version).

Definition hasVersionedID (key : string * string) (c : DeviceChange) : bool :=
  String.eqb (DeviceID c) (fst key) && String.eqb (DeviceVersion c) (snd key).

(** *** The operational state cache and the dispatcher *)

(** Modelled from the spec: the kinds of an operational state event
    (section 4.4). *)
Inductive OpStateKind : Type := ADDED | CHANGED | REMOVED.

(** Modelled from the spec: [events.OperationalStateEvent] (section 4.4); the
    handler reads [Subject()], [Path()] and [Value()]. *)
Record OperationalStateEvent : Type := {
  Subject : string;
  OpState_Path : string;
  OpState_Value : Values.TypedValue;
  Kind : OpStateKind
}.

(** Modelled from the spec: the dispatcher's registration table, keyed by
    subscription identifier (sections 4.4 and 9). *)
Definition Dispatcher := gset string.

(** Modelled from the spec: [Dispatcher.RegisterOpState] (section 4.4).  The
    table is keyed by the identifier; the error the handler checks for is
    taken to be a key that is already there. *)
Definition RegisterOpState (d : Dispatcher) (subscriber : string)
  : Dispatcher * option error :=
  if decide (subscriber ∈ d)
  then (d, Some ("NBI " ++ subscriber ++ " is already registered"))
  else ({[subscriber]} ∪ d, None).

(** Modelled from the spec: [Dispatcher.UnregisterOperationalState];
    idempotent. *)
Definition UnregisterOperationalState (d : Dispatcher) (subscriber : string) : Dispatcher :=
  d ∖ {[subscriber]}.

(** [manager.GetManager()]: the process-wide state the handlers reach. *)
Record Manager : Type := {
  OperationalStateCache : gmap string (gmap string Values.TypedValue);
  Dispatcher_ : Dispatcher;
  NetworkChangesStore : Store NetworkChange;
  DeviceChangesStore : Store DeviceChange
}.

Definition withDispatcher (mgr : Manager) (d : Dispatcher) : Manager :=
  {| OperationalStateCache := OperationalStateCache mgr;
     Dispatcher_ := d;
     NetworkChangesStore := NetworkChangesStore mgr;
     DeviceChangesStore := DeviceChangesStore mgr |}.

Definition withNetworkChangesStore (mgr : Manager) (st : Store NetworkChange) : Manager :=
  {| OperationalStateCache := OperationalStateCache mgr;
     Dispatcher_ := Dispatcher_ mgr;
     NetworkChangesStore := st;
     DeviceChangesStore := DeviceChangesStore mgr |}.

Definition withDeviceChangesStore (mgr : Manager) (st : Store DeviceChange) : Manager :=
  {| OperationalStateCache := OperationalStateCache mgr;
     Dispatcher_ := Dispatcher_ mgr;
     NetworkChangesStore := NetworkChangesStore mgr;
     DeviceChangesStore := st |}.

(** *** The handlers *)

(** The [for { select { ... } }] loop the four list and watch branches
    share.  [ch] is what the channel will carry before it is closed,
    [sched] which case of the [select] fires at each turn.  A receive on
    the exhausted channel is the [!ok] case: break out and return [nil].
    A received item that [accept] refuses is skipped; an accepted one is
    sent, and a failed send returns its error. *)
Fixpoint selectLoop {A M} (accept : A -> bool) (response : A -> M)
    (ch : list A) (sched : list Select) (stream : Stream M) {struct sched}
  : Stream M * Outcome :=
  match sched with
  | [] => (stream, Blocked)
  | SelectDone :: _ => (stream, Returned None)
  | SelectRecv :: sched' =>
      match ch with
      | [] => (stream, Returned None)
      | item :: ch' =>
          if accept item then
            match Send stream (response item) with
            | (stream', Some err) => (stream', Returned (Some err))
            | (stream', None) => selectLoop accept response ch' sched' stream'
            end
          else selectLoop accept response ch' sched' stream
      end
  end.

(** [defer ctx.Close()]: runs when the handler returns. *)
Definition deferClose {A} (out : Outcome) (store : Store A) : Store A :=
  match out with
  | Returned _ => Close store
  | Blocked => store
  end.

Definition networkWatchOpts (r : ListNetworkChangeRequest) : list WatchOption :=
  if negb (ListNetworkChangeRequest_WithoutReplay r) then [WithReplay] else [].

(** [ListNetworkChanges].  [later] are the store events that occur after the
    subscription, [sched] the cases the [select] takes. *)
Definition ListNetworkChanges (mgr : Manager) (r : ListNetworkChangeRequest)
    (later : list (Event NetworkChange)) (sched : list Select)
    (stream : Stream ListNetworkChangeResponse)
  : Manager * Stream ListNetworkChangeResponse * Outcome :=
  let matcher := MatchWildcardChNameRegexp (ChangeID r) in
  let watchOpts := networkWatchOpts r in
  if ListNetworkChangeRequest_Subscribe r then
    match Watch (NetworkChangesStore mgr) (fun _ => true) watchOpts later with
    | (_, Values.Err err) => (mgr, stream, Returned (Some err))
    | (store, Values.Ok eventCh) =>
        let '(stream', out) :=
          selectLoop
            (fun event => MatchString matcher (NetworkChange_ID (Object event)))
            (fun event => {| ListNetworkChangeResponse_Change := Object event |})
            eventCh sched stream in
        (withNetworkChangesStore mgr (deferClose out store), stream', out)
    end
  else
    match List (NetworkChangesStore mgr) (fun _ => true) with
    | (_, Values.Err err) => (mgr, stream, Returned (Some err))
    | (store, Values.Ok changeCh) =>
        let '(stream', out) :=
          selectLoop
            (fun change => MatchString matcher (NetworkChange_ID change))
            (fun change => {| ListNetworkChangeResponse_Change := change |})
            changeCh sched stream in
        (withNetworkChangesStore mgr (deferClose out store), stream', out)
    end.

Definition deviceWatchOpts (r : ListDeviceChangeRequest) : list WatchOption :=
  if negb (ListDeviceChangeRequest_WithoutReplay r) then [WithReplay] else [].

(** [ListDeviceChanges] *)
Definition ListDeviceChanges (mgr : Manager) (r : ListDeviceChangeRequest)
    (later : list (Event DeviceChange)) (sched : list Select)
    (stream : Stream ListDeviceChangeResponse)
  : Manager * Stream ListDeviceChangeResponse * Outcome :=
  let watchOpts := deviceWatchOpts r in
  let key := NewVersionedID (ListDeviceChangeRequest_DeviceID r)
                            (ListDeviceChangeRequest_DeviceVersion r) in
  if ListDeviceChangeRequest_Subscribe r then
    match Watch (DeviceChangesStore mgr) (hasVersionedID key) watchOpts later with
    | (_, Values.Err err) => (mgr, stream, Returned (Some err))
    | (store, Values.Ok eventCh) =>
        let '(stream', out) :=
          selectLoop
            (fun _ => true)
            (fun event => {| ListDeviceChangeResponse_Change := Object event |})
            eventCh sched stream in
        (withDeviceChangesStore mgr (deferClose out store), stream', out)
    end
  else
    match List (DeviceChangesStore mgr) (hasVersionedID key) with
    | (_, Values.Err err) => (mgr, stream, Returned (Some err))
    | (store, Values.Ok changeCh) =>
        let '(stream', out) :=
          selectLoop
            (fun _ => true)
            (fun change => {| ListDeviceChangeResponse_Change := change |})
            changeCh sched stream in
        (withDeviceChangesStore mgr (deferClose out store), stream', out)
    end.

(** What the [select] of [GetOpState] takes: an event from the listener, or
    the cancellation of the stream's context. *)
Inductive OpStateSelect : Type :=
| OpStateEvent (opStateEvent : OperationalStateEvent)
| OpStateDone.

(** The events a schedule delivers, in order. *)
Fixpoint scheduleEvents (sched : list OpStateSelect) : list OperationalStateEvent :=
  match sched with
  | [] => []
  | OpStateEvent opStateEvent :: sched' => opStateEvent :: scheduleEvents sched'
  | OpStateDone :: sched' => scheduleEvents sched'
  end.

Definition forDevice (deviceId : string) (opStateEvent : OperationalStateEvent) : bool :=
  String.eqb (Subject opStateEvent) deviceId.

(** [fmt.Sprintf("diags-%p", stream)] *)
Definition diagsStreamID {M} (stream : Stream M) : string := "diags-" ++ addr stream.

(** The message of the initial cache drain. *)
Definition cacheResponse (entry : string * Values.TypedValue) : OpStateResponse :=
  {| Type_ := Type_NONE;
     Pathvalue := {| Path := fst entry; Value := snd entry; Removed := false |} |}.

(** The message of the subscribe phase. *)
Definition eventResponse (opStateEvent : OperationalStateEvent) : OpStateResponse :=
  {| Type_ := Type_ADDED;
     Pathvalue := {| Path := OpState_Path opStateEvent;
                     Value := OpState_Value opStateEvent;
                     Removed := false |} |}.

(** [for path, value := range deviceCache { ... stream.Send(msg) ... }], on
    the entries in the order the range visits them. *)
Fixpoint drainCache (entries : list (string * Values.TypedValue))
    (stream : Stream OpStateResponse) : Stream OpStateResponse * option error :=
  match entries with
  | [] => (stream, None)
  | entry :: rest =>
      match Send stream (cacheResponse entry) with
      | (stream', Some err) => (stream', Some err)
      | (stream', None) => drainCache rest stream'
      end
  end.

(** The subscribe loop of [GetOpState]. *)
Fixpoint opStateLoop (d : Dispatcher) (r : OpStateRequest) (streamID : string)
    (sched : list OpStateSelect) (stream : Stream OpStateResponse)
  : Dispatcher * Stream OpStateResponse * Outcome :=
  match sched with
  | [] => (d, stream, Blocked)
  | OpStateDone :: _ =>
      (UnregisterOperationalState d streamID, stream, Returned None)
  | OpStateEvent opStateEvent :: sched' =>
      if negb (String.eqb (Subject opStateEvent) (DeviceId r)) then
        opStateLoop d r streamID sched' stream
      else
        match Send stream (eventResponse opStateEvent) with
        | (stream', Some err) => (d, stream', Returned (Some err))
        | (stream', None) => opStateLoop d r streamID sched' stream'
        end
  end.

Section GetOpState.

(** The order in which Go's [range] visits a map is not fixed: it is a
    parameter of the run. *)
Variable rangeOrder : gmap string Values.TypedValue -> list (string * Values.TypedValue).

(** [GetOpState] *)
Definition GetOpState (mgr : Manager) (r : OpStateRequest)
    (sched : list OpStateSelect) (stream : Stream OpStateResponse)
  : Manager * Stream OpStateResponse * Outcome :=
  match OperationalStateCache mgr !! DeviceId r with
  | None =>
      (mgr, stream,
       Returned (Some ("no Operational State cache available for " ++ DeviceId r)))
  | Some deviceCache =>
      match drainCache (rangeOrder deviceCache) stream with
      | (stream1, Some err) => (mgr, stream1, Returned (Some err))
      | (stream1, None) =>
          if OpStateRequest_Subscribe r then
            let streamID := diagsStreamID stream in
            match RegisterOpState (Dispatcher_ mgr) streamID with
            | (_, Some err) => (mgr, stream1, Returned (Some err))
            | (d, None) =>
                let '(d', stream2, out) := opStateLoop d r streamID sched stream1 in
                (withDispatcher mgr d', stream2, out)
            end
          else (mgr, stream1, Returned None)
      end
  end.

(** The cache entries the drain of a call walks through (none for an
    unknown device). *)
Definition cacheEntries (mgr : Manager) (r : OpStateRequest)
  : list (string * Values.TypedValue) :=
  match OperationalStateCache mgr !! DeviceId r with
  | Some deviceCache => rangeOrder deviceCache
  | None => []
  end.

End GetOpState.

(** The changes a call of [ListNetworkChanges] gets to see, in the order
    its channel carries them: with [Subscribe], the replayed records (when
    replay is on) and then the later ones; without, the records listed. *)
Definition networkCandidates (mgr : Manager) (r : ListNetworkChangeRequest)
    (later : list (Event NetworkChange)) : list NetworkChange :=
  if ListNetworkChangeRequest_Subscribe r then
    ((if ListNetworkChangeRequest_WithoutReplay r then []
      else records (NetworkChangesStore mgr)) ++ map Object later)%list
  else records (NetworkChangesStore mgr).

(** The same for [ListDeviceChanges], restricted to the key of the request. *)
Definition deviceCandidates (mgr : Manager) (r : ListDeviceChangeRequest)
    (later : list (Event DeviceChange)) : list DeviceChange :=
  let key := NewVersionedID (ListDeviceChangeRequest_DeviceID r)
                            (ListDeviceChangeRequest_DeviceVersion r) in
  let existing := List.filter (hasVersionedID key) (records (DeviceChangesStore mgr)) in
  if ListDeviceChangeRequest_Subscribe r then
    ((if ListDeviceChangeRequest_WithoutReplay r then [] else existing)
     ++ List.filter (hasVersionedID key) (map Object later))%list
  else existing.

Definition matchesRequest (r : ListNetworkChangeRequest) (change : NetworkChange) : bool :=
  MatchString (MatchWildcardChNameRegexp (ChangeID r)) (NetworkChange_ID change).

Definition networkResponse (change : NetworkChange) : ListNetworkChangeResponse :=
  {| ListNetworkChangeResponse_Change := change |}.

Definition deviceResponse (change : DeviceChange) : ListDeviceChangeResponse :=
  {| ListDeviceChangeResponse_Change := change |}.

End Diags.

(** ** A small deployment to run the handlers on *)

Module Fixture.
Import Diags.

Definition networkChange (id : string) : NetworkChange :=
  {| NetworkChange_ID := id; Refs := []; NetworkChange_Phase := APPLIED |}.

Definition deviceChange (id deviceID version : string) : DeviceChange :=
  {| DeviceChange_ID := id; DeviceID := deviceID; DeviceVersion := version; Values := [] |}.

Definition networkLog : Store NetworkChange :=
  {| records := [networkChange "foo-1"; networkChange "bar-foo"; networkChange "foo-bar"];
     openContexts := 0;
     unavailable := None |}.

Definition deviceLog : Store DeviceChange :=
  {| records := [deviceChange "c1" "device-1" "1.0.0";
                 deviceChange "c2" "device-2" "1.0.0";
                 deviceChange "c3" "device-1" "1.0.0"];
     openContexts := 0;
     unavailable := None |}.

Definition deviceCache : gmap string Values.TypedValue :=
  <["/system/name" := Values.NewTypedValueString "leaf-1"]>
    (<["/system/up" := Values.NewTypedValueBool true]> ∅).

Definition manager : Manager :=
  {| OperationalStateCache := <["device-1" := deviceCache]> ∅;
     Dispatcher_ := ∅;
     NetworkChangesStore := networkLog;
     DeviceChangesStore := deviceLog |}.

Definition stream (M : Type) : Stream M :=
  {| addr := "0xc000010000"; sent := []; failures := [] |}.

Definition laterNetwork : list (Event NetworkChange) :=
  [{| Event_Type := Created; Object := networkChange "foo-2" |}].

Definition laterDevice : list (Event DeviceChange) :=
  [{| Event_Type := Created; Object := deviceChange "c4" "device-2" "1.0.0" |};
   {| Event_Type := Created; Object := deviceChange "c5" "device-1" "1.0.0" |}].

Definition watchDevice1 (withoutReplay : bool) : ListDeviceChangeRequest :=
  {| ListDeviceChangeRequest_DeviceID := "device-1";
     ListDeviceChangeRequest_DeviceVersion := "1.0.0";
     ListDeviceChangeRequest_Subscribe := true;
     ListDeviceChangeRequest_WithoutReplay := withoutReplay |}.

Definition watchFoo : ListNetworkChangeRequest :=
  {| ChangeID := "foo-*";
     ListNetworkChangeRequest_Subscribe := true;
     ListNetworkChangeRequest_WithoutReplay := false |}.

Definition watchNothing : ListNetworkChangeRequest :=
  {| ChangeID := "baz-*";
     ListNetworkChangeRequest_Subscribe := true;
     ListNetworkChangeRequest_WithoutReplay := false |}.

Definition opStateOf (deviceId : string) (subscribe : bool) : OpStateRequest :=
  {| DeviceId := deviceId; OpStateRequest_Subscribe := subscribe |}.

Definition rangeOrder (m : gmap string Values.TypedValue) : list (string * Values.TypedValue) :=
  map_to_list m.

Definition removedOnDevice1 : OperationalStateEvent :=
  {| Subject := "device-1"; OpState_Path := "/system/up";
     OpState_Value := Values.NewTypedValueBool false; Kind := REMOVED |}.

Definition addedOnDevice2 : OperationalStateEvent :=
  {| Subject := "device-2"; OpState_Path := "/system/up";
     OpState_Value := Values.NewTypedValueBool true; Kind := ADDED |}.

End Fixture.

(** ** test/runner/cluster.go *)

Module Runner.
Import Go.

(** [corev1.Pod], as far as the controller reads it. *)
Record Pod : Type := {
  Name : string
}.

(** The Kubernetes client the controller holds, by what its calls answer:
    [Pods(ns).Get(name, opts)], [Pods(ns).List(opts)] under a label
    selector, and [Pods(ns).GetLogs(name, opts).Stream()] read through a
    [bufio.Scanner] (the lines [Scan] yields, or the error of [Stream]). *)
Record Clientset : Type := {
  PodsGet : string -> string -> Values.result Pod error;
  PodsList : string -> string -> Values.result (list Pod) error;
  PodsGetLogs : string -> string -> Values.result (list string) error
}.

(** [ClusterController], as far as the log functions read it. *)
Record ClusterController : Type := {
  ClusterId : string;
  kubeclient : Clientset
}.

Section Logs.

(** [k8serrors.IsNotFound] *)
Variable IsNotFound : error -> bool.

Variable c : ClusterController.

(** [for scanner.Scan() { logs = append(logs, scanner.Text()) }] *)
Fixpoint scanAll (lines : list string) (logs : list string) : list string :=
  match lines with
  | [] => logs
  | text :: rest => scanAll rest (logs ++ [text])
  end.

(** [getLogs] *)
Definition getLogs (pod : Pod) : Values.result (list string) error :=
  match PodsGetLogs (kubeclient c) (ClusterId c) (Name pod) with
  | Values.Err err => Values.Err err
  | Values.Ok lines => Values.Ok (scanAll lines [])
  end.

(** The loop of [getAllLogs]: [for i, pod := range pods { ... allLogs[i] = logs }],
    from index [i] on. *)
Fixpoint getAllLogsFrom (i : nat) (pods : list Pod) (allLogs : list (list string))
  : Values.result (list (list string)) error :=
  match pods with
  | [] => Values.Ok allLogs
  | pod :: rest =>
      match getLogs pod with
      | Values.Err err => Values.Err err
      | Values.Ok logs => getAllLogsFrom (S i) rest (<[i := logs]> allLogs)
      end
  end.

(** [getAllLogs]: [allLogs := make([][]string, len(pods))], then the loop. *)
Definition getAllLogs (pods : list Pod) : Values.result (list (list string)) error :=
  getAllLogsFrom 0 pods (replicate (length pods) []).

(** [GetLogs] *)
Definition GetLogs (resourceId : string) : Values.result (list (list string)) error :=
  match PodsGet (kubeclient c) (ClusterId c) resourceId with
  | Values.Ok pod => getAllLogs [pod]
  | Values.Err err =>
      if negb (IsNotFound err) then Values.Err err
      else
        match PodsList (kubeclient c) (ClusterId c) ("resource=" ++ resourceId) with
        | Values.Err err => Values.Err err
        | Values.Ok items =>
            if Nat.eqb (length items) 0
            then Values.Err ("unknown test resource " ++ resourceId)
            else getAllLogs items
        end
  end.

End Logs.

(** [time.Minute], in nanoseconds. *)
Definition Minute : Z := 60 * 1000000000.

Section RunTests.

(** The state of the cluster the steps act on. *)
Variable K : Type.

(** [startTests], [streamLogs] and [getStatus], which are not in this file:
    what each does to the cluster and returns. *)
Variable startTests : K -> string -> list string -> Z -> K * Values.result Pod error.
Variable streamLogs : K -> Pod -> K * option error.
Variable getStatus : K -> Pod -> K * (string * Z * option error).

(** [RunTests] *)
Definition RunTests (k : K) (testId : string) (tests : list string) (timeout : Z)
  : K * (string * Z * option error) :=
  let timeout := if timeout =? 0 then 10 * Minute else timeout in
  match startTests k testId tests timeout with
  | (k1, Values.Err err) => (k1, (""%string, 0, Some err))
  | (k1, Values.Ok pod) =>
      match streamLogs k1 pod with
      | (k2, Some err) => (k2, (""%string, 0, Some err))
      | (k2, None) => getStatus k2 pod
      end
  end.

End RunTests.

(** A cluster to run the log functions on: one pod found by name, two found
    by label, one of which has no log stream. *)
Definition notFound : error := "pods not found".

Definition testClient : Clientset :=
  {| PodsGet := fun _ name =>
       if String.eqb name "pod-1" then Values.Ok {| Name := "pod-1" |}
       else Values.Err notFound;
     PodsList := fun _ selector =>
       if String.eqb selector "resource=test-1"
       then Values.Ok [{| Name := "test-1-a" |}; {| Name := "test-1-b" |}]
       else Values.Ok [];
     PodsGetLogs := fun _ name =>
       if String.eqb name "broken" then Values.Err "stream closed"%string
       else Values.Ok [name; "done"%string] |}.

Definition testCluster : ClusterController :=
  {| ClusterId := "onos-test"; kubeclient := testClient |}.

Definition testIsNotFound (err : error) : bool := String.eqb err notFound.

End Runner.

(** ** The [changes] command of the command line client (package [cli]) *)

Module Cli.
Import Go.

(** [diags.ChangesRequest] *)
Record ChangesRequest : Type := {
  ChangeIDs : list string
}.

(** What one [stream.Recv()] answers: a change, [io.EOF], or another
    error. *)
Inductive Recv (C : Type) : Type :=
| RecvChange (change : C)
| RecvEOF
| RecvError (err : error).
Arguments RecvChange {C} change.
Arguments RecvEOF {C}.
Arguments RecvError {C} err.

(** [cobra.MaximumNArgs(n)], as the check it makes on the arguments. *)
Definition MaximumNArgs (n : nat) (args : list string) : bool :=
  Nat.leb (length args) n.

(** [cobra.Command], as far as [getGetChangesCommand] fills it ([RunE] is
    [runChangesCommand] below). *)
Record Command : Type := {
  Use : string;
  Short : string;
  Args : list string -> bool
}.

(** [getGetChangesCommand] *)
Definition getGetChangesCommand : Command :=
  {| Use := "changes [<changeId>]";
     Short := "Lists records of configuration changes (deprecated)";
     Args := MaximumNArgs 1 |}.

(** The request [runChangesCommand] builds from its arguments. *)
Definition changesRequest (args : list string) : ChangesRequest :=
  let changesReq := {| ChangeIDs := [] |} in
  if Nat.eqb (length args) 1 then
    match args with
    | arg0 :: _ => {| ChangeIDs := ChangeIDs changesReq ++ [arg0] |}
    | [] => changesReq
    end
  else changesReq.

Section RunChanges.

(** The change message and the connection are opaque to the command. *)
Variables C Conn : Type.

(** [getConnection()] *)
Variable getConnection : Values.result Conn error.

(** [client.GetChanges(ctx, changesReq)]: the error of the call, or what the
    successive [Recv] of the stream answer. *)
Variable GetChanges : Conn -> ChangesRequest -> Values.result (list (Recv C)) error.

(** What [tmplChanges.Execute(GetOutput(), in)] writes for a change (its
    error is dropped by the command). *)
Variable Execute : C -> string.

(** The receive loop, on the text written so far. *)
Fixpoint recvLoop (stream : list (Recv C)) (output : list string)
  : list string * Diags.Outcome :=
  match stream with
  | [] => (output, Diags.Blocked)
  | RecvEOF :: _ => (output, Diags.Returned None)
  | RecvError err :: _ => (output, Diags.Returned (Some err))
  | RecvChange change :: rest => recvLoop rest (output ++ [Execute change])
  end.

(** [runChangesCommand] *)
Definition runChangesCommand (args : list string) (output : list string)
  : list string * Diags.Outcome :=
  match getConnection with
  | Values.Err clientConnectionError => (output, Diags.Returned (Some clientConnectionError))
  | Values.Ok clientConnection =>
      match GetChanges clientConnection (changesRequest args) with
      | Values.Err err => (output, Diags.Returned (Some err))
      | Values.Ok stream => recvLoop stream output
      end
  end.

End RunChanges.

End Cli.

(** ** Streams whose transport gives up *)

Module FailingStreams.
Import Diags.

(** A stream on which the send number [n] (from zero) fails. *)
Definition failingAt (M : Type) (n : nat) : Stream M :=
  {| addr := "0xc000010000";
     sent := [];
     failures := replicate n None ++ [Some "transport is closing"%string] |}.

End FailingStreams.

(** ** Snapshot identifiers: proofs *)

Module SnapshotFacts.
Import Go Snapshot.

Lemma HasPrefix_separator (s : string) :
  HasPrefix s separator = true <-> exists s', s = String ":" s'.
Proof.
  unfold separator. destruct s as [|c s]; cbn [HasPrefix].
  - split; [discriminate | intros [s' H]; discriminate].
  - destruct (Ascii.eqb_spec ":" c) as [<-|Hne].
    + split; [intros _; eexists; reflexivity | reflexivity].
    + split; [discriminate | intros [s' H]; congruence].
Qed.

(** Past a separator-free prefix the search lands on the joining
    separator, and the slice starts right behind it. *)
Lemma GetDeviceID_after_prefix (n d : string) :
  ~ has_separator n ->
  Index (n ++ separator ++ d) separator = len n
  /\ drop_bytes (S (String.length n)) (n ++ separator ++ d) = d.
Proof.
  unfold has_separator, len.
  induction n as [|c n IH]; intros Hn.
  - split; vm_compute; reflexivity.
  - simpl in Hn.
    assert (Hc : c <> ":"%char) by (intros ->; apply Hn; now left).
    assert (Hn' : ~ In ":"%char (list_ascii_of_string n))
      by (intros H; apply Hn; now right).
    destruct (IH Hn') as [Hi Hd]. split.
    + change (String c n ++ separator ++ d) with (String c (n ++ separator ++ d)).
      cbn [Index].
      replace (HasPrefix (String c (n ++ separator ++ d)) separator) with false.
      * rewrite Hi. cbn [String.length].
        destruct (Z.ltb_spec (Z.of_nat (String.length n)) 0); lia.
      * symmetry. apply not_true_is_false. rewrite HasPrefix_separator.
        intros [s' H]. congruence.
    + exact Hd.
Qed.

Lemma length_append (a b : string) :
  String.length (a ++ b) = (String.length a + String.length b)%nat.
Proof. induction a as [|c a IH]; simpl; [reflexivity | now rewrite IH]. Qed.

Lemma slice_from_in_range (s : string) (k : Z) :
  0 <= k <= len s -> slice_from s k = Some (drop_bytes (Z.to_nat k) s).
Proof.
  intros Hk. unfold slice_from.
  destruct (Z.ltb_spec k 0); [lia|].
  destruct (Z.ltb_spec (len s) k); [lia|]. reflexivity.
Qed.

(** C3. Snapshot ID reversibility: when neither the network identifier nor
    the device identifier holds the separator character ':', the device
    identifier read back from [GetSnapshotID networkID deviceID] is
    [deviceID] (and the slice does not panic). *)
Theorem GetDeviceID_GetSnapshotID (networkID deviceID : string) :
  ~ has_separator networkID ->
  ~ has_separator deviceID ->
  GetDeviceID (GetSnapshotID networkID deviceID) = Some deviceID.
Proof.
  intros Hn _. unfold GetDeviceID, GetSnapshotID.
  destruct (GetDeviceID_after_prefix networkID deviceID Hn) as [Hi Hd].
  rewrite Hi, slice_from_in_range.
  - unfold len.
    replace (Z.to_nat (Z.of_nat (String.length networkID) + 1))
      with (S (String.length networkID)) by lia.
    now rewrite Hd.
  - unfold len, separator. rewrite !length_append. cbn [String.length]. lia.
Qed.

Lemma GetDeviceID_GetSnapshotID_witness :
  ~ has_separator "network-1" /\ ~ has_separator "device-1"
  /\ GetDeviceID (GetSnapshotID "network-1" "device-1") = Some "device-1".
Proof.
  assert (Hn : ~ has_separator "network-1")
    by (unfold has_separator; simpl; intros H; decompose [or] H; discriminate || contradiction).
  assert (Hd : ~ has_separator "device-1")
    by (unfold has_separator; simpl; intros H; decompose [or] H; discriminate || contradiction).
  split; [exact Hn | split; [exact Hd |]].
  exact (GetDeviceID_GetSnapshotID "network-1" "device-1" Hn Hd).
Defined.

End SnapshotFacts.

(** ** The codec: proofs *)

Module ValuesFacts.
Import Values.

Lemma Kind_eqb_eq (a b : Kind) : Kind_eqb a b = true <-> a = b.
Proof. destruct a, b; simpl; split; congruence. Qed.

Lemma Kind_eqb_refl (a : Kind) : Kind_eqb a a = true.
Proof. now apply Kind_eqb_eq. Qed.
















(** *** The tests, replayed *)

Example Test_comparables_int_list :
  GnmiTypedValueToNativeType intListTestValue None
    = Ok (Leaflist KInt [TypedInt 100 64; TypedInt 101 64; TypedInt 102 64; TypedInt 103 64])
  /\ NativeTypeToGnmiTypedValue
       (Leaflist KInt [TypedInt 100 64; TypedInt 101 64; TypedInt 102 64; TypedInt 103 64])
     = Ok intListTestValue.
Proof. split; reflexivity. Qed.

Example Test_comparables_decimal_leaf :
  GnmiTypedValueToNativeType decimalLeafTestValue None = Ok (Leaf (TypedDecimal 1234 2))
  /\ NativeTypeToGnmiTypedValue (Leaf (TypedDecimal 1234 2)) = Ok decimalLeafTestValue.
Proof. split; reflexivity. Qed.

Example Test_comparables_bytes_leaf :
  GnmiTypedValueToNativeType bytesLeafTestValue None
    = Ok (Leaf (TypedBytes [Byte.x61; Byte.x62; Byte.x63]))
  /\ Type_ (Leaf (TypedBytes [Byte.x61; Byte.x62; Byte.x63])) = ValueType_BYTES
  /\ NativeTypeToGnmiTypedValue (Leaf (TypedBytes [Byte.x61; Byte.x62; Byte.x63]))
     = Ok bytesLeafTestValue.
Proof. repeat split; reflexivity. Qed.

(** An integer of any width comes back under a hint carrying that width. *)
Lemma int_roundtrip_under_own_width (n : Z) (width : Width) :
  NativeTypeToGnmiTypedValue (NewTypedValueInt n width)
    = Ok (Gnmi.Value (Gnmi.TypedValue_IntVal n))
  /\ GnmiTypedValueToNativeType (Gnmi.Value (Gnmi.TypedValue_IntVal n))
       (Some {| ValueType_ := ValueType_INT; TypeOpts := [width] |})
     = Ok (NewTypedValueInt n width).
Proof. split; reflexivity. Qed.

Example Test_ascii :
  GnmiTypedValueToNativeType asciiLeafTestValue None = Ok (NewTypedValueString "ascii")
  /\ Type_ (NewTypedValueString "ascii") = ValueType_STRING.
Proof. split; reflexivity. Qed.

Example Test_asciiList :
  GnmiTypedValueToNativeType asciiListTestValue None
    = Ok (Leaflist KString [TypedString "abc"; TypedString "def"; TypedString "ghi"; TypedString "jkl"])
  /\ NativeTypeToGnmiTypedValue
       (Leaflist KString [TypedString "abc"; TypedString "def"; TypedString "ghi"; TypedString "jkl"])
     = Ok (Gnmi.TypedValue_LeaflistVal
             [Gnmi.TypedValue_StringVal "abc"; Gnmi.TypedValue_StringVal "def";
              Gnmi.TypedValue_StringVal "ghi"; Gnmi.TypedValue_StringVal "jkl"]).
Proof. split; reflexivity. Qed.

Example Test_empty : NativeTypeToGnmiTypedValue NewTypedValueEmpty = Ok Gnmi.TypedValue_AnyVal.
Proof. reflexivity. Qed.

(** Without a hint a width-8 integer comes back with the default width. *)
Example narrow_int_needs_hint :
  NativeTypeToGnmiTypedValue (NewTypedValueInt 5 WidthEight) = Ok (Gnmi.Value (Gnmi.TypedValue_IntVal 5))
  /\ GnmiTypedValueToNativeType (Gnmi.Value (Gnmi.TypedValue_IntVal 5)) None
     = Ok (NewTypedValueInt 5 WidthSixtyFour)
  /\ NewTypedValueInt 5 WidthSixtyFour <> NewTypedValueInt 5 WidthEight.
Proof. repeat split; try reflexivity. discriminate. Qed.

(** The same for the ascii leaf of [Test_ascii]. *)
Example ascii_leaf_comes_back_as_string :
  GnmiTypedValueToNativeType asciiLeafTestValue None = Ok (NewTypedValueString "ascii")
  /\ NativeTypeToGnmiTypedValue (NewTypedValueString "ascii")
     = Ok (Gnmi.Value (Gnmi.TypedValue_StringVal "ascii")).
Proof. split; reflexivity. Qed.

(** What the Ascii constructor gives: the ascii wire tag on encode, and the
    String value on the way back. *)
Example ascii_built_comes_back_as_string :
  NativeTypeToGnmiTypedValue (NewTypedValueAscii "ascii") = Ok asciiLeafTestValue
  /\ GnmiTypedValueToNativeType asciiLeafTestValue None = Ok (NewTypedValueString "ascii")
  /\ Type_ (NewTypedValueAscii "ascii") = ValueType_STRING.
Proof. repeat split; reflexivity. Qed.




(** C4. Width-hint override: a wire integer (signed or unsigned) decoded
    under an explicit 32-bit hint reports width 32 and keeps the wire
    payload as its value; decoded with no hint it reports the widest
    width, 64. *)
Theorem width_hint_override (n : Z) :
  GnmiTypedValueToNativeType (Gnmi.Value (Gnmi.TypedValue_IntVal n)) (Some int32PathElem)
    = Ok (NewTypedValueInt n 32)
  /\ GnmiTypedValueToNativeType (Gnmi.Value (Gnmi.TypedValue_IntVal n)) None
     = Ok (NewTypedValueInt n 64)
  /\ GnmiTypedValueToNativeType (Gnmi.Value (Gnmi.TypedValue_UintVal n)) (Some int32PathElem)
     = Ok (NewTypedValueUint n 32)
  /\ GnmiTypedValueToNativeType (Gnmi.Value (Gnmi.TypedValue_UintVal n)) None
     = Ok (NewTypedValueUint n 64)
  /\ widthOfScalar (scalarToNative (Gnmi.TypedValue_IntVal n) (Some int32PathElem)) = Some 32
  /\ widthOfScalar (scalarToNative (Gnmi.TypedValue_IntVal n) None) = Some WidthSixtyFour.
Proof. repeat split; reflexivity. Qed.

Example Test_GnmiIntToNative :
  GnmiTypedValueToNativeType (Gnmi.Value (Gnmi.TypedValue_IntVal testNegativeInt))
    (Some int32PathElem) = Ok (NewTypedValueInt testNegativeInt WidthThirtyTwo).
Proof. reflexivity. Qed.

(** C5. Encode error handling: a Bytes value with a payload of length zero
    is refused with [InvalidLength], a value whose tag is outside the
    declared set (tag 99 in the test) with [UnsupportedType] for that tag;
    in both cases no value is returned. *)
Theorem encode_errors (tag : Z) (bytes : list Byte.byte) :
  NativeTypeToGnmiTypedValue (Leaf (TypedBytes [])) = Err (InvalidLength 0)
  /\ valueOf (NativeTypeToGnmiTypedValue (Leaf (TypedBytes []))) = None
  /\ NativeTypeToGnmiTypedValue (Untyped tag bytes) = Err (UnsupportedType tag)
  /\ valueOf (NativeTypeToGnmiTypedValue (Untyped tag bytes)) = None.
Proof. repeat split; reflexivity. Qed.

Example Test_errors :
  NativeTypeToGnmiTypedValue (Leaf (TypedBytes [])) = Err (InvalidLength 0)
  /\ NativeTypeToGnmiTypedValue (Untyped 99 [Byte.x00; Byte.x00; Byte.x00; Byte.x00])
     = Err (UnsupportedType 99).
Proof. split; reflexivity. Qed.

End ValuesFacts.

(** ** The diagnostic service: proofs *)

Module DiagsFacts.
Import Go Diags.
Local Open Scope list_scope.

(** *** Sending *)

Lemma Send_sent {M} (stream : Stream M) (msg : M) :
  addr (Send stream msg).1 = addr stream
  /\ match (Send stream msg).2 with
     | None => sent (Send stream msg).1 = sent stream ++ [msg]
     | Some _ => sent (Send stream msg).1 = sent stream
     end.
Proof.
  unfold Send. destruct (failures stream) as [|[err|] rest]; simpl; auto.
Qed.

Lemma Send_healthy {M} (stream : Stream M) (msg : M) :
  healthy stream = true ->
  exists stream', Send stream msg = (stream', None)
                  /\ sent stream' = sent stream ++ [msg]
                  /\ addr stream' = addr stream
                  /\ healthy stream' = true.
Proof.
  unfold healthy, Send. destruct (failures stream) as [|[err|] rest]; simpl; intros H.
  - eexists; repeat split; reflexivity.
  - discriminate.
  - eexists; repeat split; simpl; auto.
Qed.

(** *** The shared select loop *)

Section SelectLoop.
Context {A M : Type} (accept : A -> bool) (response : A -> M).

(** Whatever the run, the loop has sent the accepted items among the
    first few the channel carried, in channel order, and nothing else. *)
Lemma selectLoop_sent (ch : list A) (sched : list Select) (stream : Stream M) :
  exists n,
    sent (selectLoop accept response ch sched stream).1
    = sent stream ++ map response (List.filter accept (take n ch)).
Proof.
  revert ch stream.
  induction sched as [|[|] sched IH]; intros ch stream; simpl.
  - exists 0%nat. simpl. now rewrite app_nil_r.
  - destruct ch as [|item ch].
    + exists 0%nat. simpl. now rewrite app_nil_r.
    + destruct (accept item) eqn:Hacc.
      * pose proof (Send_sent stream (response item)) as [_ Hs].
        destruct (Send stream (response item)) as [stream' [err|]]; simpl in Hs.
        -- exists 0%nat. simpl. now rewrite Hs, app_nil_r.
        -- destruct (IH ch stream') as [n Hn]. exists (S n).
           rewrite Hn, Hs. simpl. rewrite Hacc. simpl.
           now rewrite <- app_assoc.
      * destruct (IH ch stream) as [n Hn]. exists (S n).
        rewrite Hn. simpl. now rewrite Hacc.
  - exists 0%nat. simpl. now rewrite app_nil_r.
Qed.

(** On a healthy stream, [k] receives deliver the accepted items among
    the first [k] of the channel and leave the loop waiting. *)
Lemma selectLoop_receives (ch : list A) (k : nat) (stream : Stream M) :
  healthy stream = true ->
  (k <= length ch)%nat ->
  exists stream',
    selectLoop accept response ch (replicate k SelectRecv) stream = (stream', Blocked)
    /\ sent stream' = sent stream ++ map response (List.filter accept (take k ch))
    /\ addr stream' = addr stream
    /\ healthy stream' = true.
Proof.
  revert ch stream.
  induction k as [|k IH]; intros ch stream Hh Hk; simpl.
  - exists stream. rewrite app_nil_r. auto.
  - destruct ch as [|item ch]; [simpl in Hk; lia|].
    simpl in Hk. apply le_S_n in Hk. simpl.
    destruct (accept item) eqn:Hacc.
    + destruct (Send_healthy stream (response item) Hh) as (s1 & Hsend & Hsent & Haddr & Hh1).
      rewrite Hsend.
      destruct (IH ch s1 Hh1 Hk) as (s2 & Hrun & Hsent2 & Haddr2 & Hh2).
      exists s2. rewrite Hrun, Hsent2, Hsent, Haddr2, Haddr. simpl.
      rewrite <- app_assoc. auto.
    + destruct (IH ch stream Hh Hk) as (s2 & Hrun & Hsent2 & Haddr2 & Hh2).
      exists s2. rewrite Hrun, Hsent2. auto.
Qed.

(** Items the filter refuses never touch the stream and never raise an
    error, whatever the transport would answer. *)
Lemma selectLoop_all_refused (ch : list A) (sched : list Select) (stream : Stream M) :
  forallb (fun item => negb (accept item)) ch = true ->
  (selectLoop accept response ch sched stream).1 = stream
  /\ ((selectLoop accept response ch sched stream).2 = Blocked
      \/ (selectLoop accept response ch sched stream).2 = Returned None).
Proof.
  revert ch.
  induction sched as [|[|] sched IH]; intros ch Hall; simpl; auto.
  destruct ch as [|item ch]; simpl; auto.
  simpl in Hall. apply andb_true_iff in Hall as [Hitem Hrest].
  apply negb_true_iff in Hitem. rewrite Hitem. now apply IH.
Qed.

(** A loop still waiting after [pre] returns [nil] as soon as the
    cancellation case fires, with the stream as [pre] left it. *)
Lemma selectLoop_cancel (ch : list A) (pre rest : list Select) (stream : Stream M) :
  (selectLoop accept response ch pre stream).2 = Blocked ->
  selectLoop accept response ch (pre ++ SelectDone :: rest) stream
  = ((selectLoop accept response ch pre stream).1, Returned None).
Proof.
  revert ch stream.
  induction pre as [|[|] pre IH]; intros ch stream; simpl.
  - reflexivity.
  - destruct ch as [|item ch]; simpl; [discriminate|].
    destruct (accept item).
    + destruct (Send stream (response item)) as [stream' [err|]]; simpl;
        [discriminate | apply IH].
    + apply IH.
  - discriminate.
Qed.

End SelectLoop.

(** *** The wildcard matcher *)

Lemma MatchString_wildcard (re : Regexp) (s : string) :
  MatchString (Wildcard :: re) s
  = MatchString re s
    || match s with
       | EmptyString => false
       | String _ s' => MatchString (Wildcard :: re) s'
       end.
Proof. destruct s; reflexivity. Qed.

Lemma MatchString_wildcard_split (re : Regexp) (s : string) :
  MatchString (Wildcard :: re) s = true
  <-> exists u s', s = (u ++ s')%string /\ MatchString re s' = true.
Proof.
  split.
  - induction s as [|c s IH]; rewrite MatchString_wildcard; intros H.
    + rewrite orb_false_r in H. exists ""%string, ""%string. auto.
    + apply orb_true_iff in H as [H|H].
      * exists ""%string, (String c s). auto.
      * destruct (IH H) as (u & s' & -> & Hs'). exists (String c u), s'. auto.
  - intros (u & s' & -> & Hs').
    induction u as [|c u IH].
    + change ("" ++ s')%string with s'. rewrite MatchString_wildcard, Hs'. reflexivity.
    + change (String c u ++ s')%string with (String c (u ++ s')%string).
      rewrite MatchString_wildcard, IH. apply orb_true_r.
Qed.

(** The matcher decides anchored glob matching. *)
Lemma MatchString_Matches (re : Regexp) (s : string) :
  MatchString re s = true <-> Matches re s.
Proof.
  revert s. induction re as [|[|c] re IH]; intros s.
  - destruct s; simpl; split; intros H; try discriminate; try constructor.
    inversion H.
  - rewrite MatchString_wildcard_split. split.
    + intros (u & s' & -> & Hs'). constructor. now apply IH.
    + intros H. inversion H; subst. eexists _, _. split; [reflexivity|]. now apply IH.
  - destruct s as [|d s]; simpl.
    + split; [discriminate | intros H; inversion H].
    + rewrite andb_true_iff, IH. split.
      * intros [Hc Hs]. apply Ascii.eqb_eq in Hc. subst d. now constructor.
      * intros H. inversion H; subst. split; [apply Ascii.eqb_refl | assumption].
Qed.

(** *** The list and watch handlers, unfolded to the shared loop *)

Lemma selectLoop_map {A B M} (f : A -> B) (accept : B -> bool) (response : B -> M)
    (ch : list A) (sched : list Select) (stream : Stream M) :
  selectLoop (fun a => accept (f a)) (fun a => response (f a)) ch sched stream
  = selectLoop accept response (map f ch) sched stream.
Proof.
  revert ch stream. induction sched as [|[|] sched IH]; intros ch stream; simpl; auto.
  destruct ch as [|a ch]; simpl; auto.
  destruct (accept (f a)); [|apply IH].
  destruct (Send stream (response (f a))) as [stream' [err|]]; auto.
Qed.

Lemma filter_true {A} (l : list A) : List.filter (fun _ => true) l = l.
Proof. induction l as [|a l IH]; simpl; congruence. Qed.

Lemma filter_map_Object {A} (p : A -> bool) (l : list (Event A)) :
  map Object (List.filter (fun ev => p (Object ev)) l) = List.filter p (map Object l).
Proof.
  induction l as [|a l IH]; simpl; [reflexivity|].
  destruct (p (Object a)); simpl; congruence.
Qed.

Lemma map_Object_created {A} (l : list A) :
  map Object (map (fun c => {| Event_Type := Created; Object := c |}) l) = l.
Proof. induction l as [|a l IH]; simpl; congruence. Qed.

Lemma ListNetworkChanges_unfold (mgr : Manager) (r : ListNetworkChangeRequest)
    (later : list (Event NetworkChange)) (sched : list Select)
    (stream : Stream ListNetworkChangeResponse) :
  unavailable (NetworkChangesStore mgr) = None ->
  ListNetworkChanges mgr r later sched stream
  = let run := selectLoop (matchesRequest r) networkResponse
                          (networkCandidates mgr r later) sched stream in
    (withNetworkChangesStore mgr (deferClose run.2 (openContext (NetworkChangesStore mgr))),
     run.1, run.2).
Proof.
  intros Hav. unfold ListNetworkChanges, networkCandidates, Watch, List, networkWatchOpts.
  rewrite Hav.
  destruct (ListNetworkChangeRequest_Subscribe r).
  - rewrite (selectLoop_map Object (matchesRequest r) networkResponse).
    rewrite !filter_true, map_app.
    destruct (ListNetworkChangeRequest_WithoutReplay r); simpl.
    + destruct (selectLoop _ _ _ _ _); reflexivity.
    + rewrite map_Object_created. destruct (selectLoop _ _ _ _ _); reflexivity.
  - rewrite filter_true.
    change (fun change => MatchString (MatchWildcardChNameRegexp (ChangeID r))
                            (NetworkChange_ID change)) with (matchesRequest r).
    change (fun change => {| ListNetworkChangeResponse_Change := change |})
      with networkResponse.
    destruct (selectLoop _ _ _ _ _); reflexivity.
Qed.

Lemma ListDeviceChanges_unfold (mgr : Manager) (r : ListDeviceChangeRequest)
    (later : list (Event DeviceChange)) (sched : list Select)
    (stream : Stream ListDeviceChangeResponse) :
  unavailable (DeviceChangesStore mgr) = None ->
  ListDeviceChanges mgr r later sched stream
  = let run := selectLoop (fun _ => true) deviceResponse
                          (deviceCandidates mgr r later) sched stream in
    (withDeviceChangesStore mgr (deferClose run.2 (openContext (DeviceChangesStore mgr))),
     run.1, run.2).
Proof.
  intros Hav. unfold ListDeviceChanges, deviceCandidates, Watch, List, deviceWatchOpts.
  rewrite Hav.
  destruct (ListDeviceChangeRequest_Subscribe r).
  - rewrite (selectLoop_map Object (fun _ => true) deviceResponse).
    rewrite map_app, filter_map_Object.
    destruct (ListDeviceChangeRequest_WithoutReplay r); simpl.
    + destruct (selectLoop _ _ _ _ _); reflexivity.
    + rewrite map_Object_created. destruct (selectLoop _ _ _ _ _); reflexivity.
  - change (fun change => {| ListDeviceChangeResponse_Change := change |})
      with deviceResponse.
    destruct (selectLoop _ _ _ _ _); reflexivity.
Qed.

Lemma Close_openContext {A} (store : Store A) : Close (openContext store) = store.
Proof. destruct store; reflexivity. Qed.

Lemma withNetworkChangesStore_same (mgr : Manager) :
  withNetworkChangesStore mgr (NetworkChangesStore mgr) = mgr.
Proof. destruct mgr; reflexivity. Qed.

Lemma withDeviceChangesStore_same (mgr : Manager) :
  withDeviceChangesStore mgr (DeviceChangesStore mgr) = mgr.
Proof. destruct mgr; reflexivity. Qed.

Lemma withDispatcher_same (mgr : Manager) : withDispatcher mgr (Dispatcher_ mgr) = mgr.
Proof. destruct mgr; reflexivity. Qed.

(** A waiting [ListNetworkChanges] returns [nil] on cancellation and gives
    its store context back. *)
Lemma ListNetworkChanges_cancel (mgr : Manager) (r : ListNetworkChangeRequest)
    (later : list (Event NetworkChange)) (pre rest : list Select)
    (stream : Stream ListNetworkChangeResponse) :
  (ListNetworkChanges mgr r later pre stream).2 = Blocked ->
  openContexts (NetworkChangesStore ((ListNetworkChanges mgr r later pre stream).1.1))
  = S (openContexts (NetworkChangesStore mgr))
  /\ ListNetworkChanges mgr r later (pre ++ SelectDone :: rest) stream
     = (mgr, (ListNetworkChanges mgr r later pre stream).1.2, Returned None).
Proof.
  destruct (unavailable (NetworkChangesStore mgr)) as [err|] eqn:Hav.
  - unfold ListNetworkChanges, Watch, List. rewrite Hav.
    destruct (ListNetworkChangeRequest_Subscribe r); discriminate.
  - rewrite !(ListNetworkChanges_unfold mgr r later _ stream Hav). cbn zeta. simpl.
    intros Hb. rewrite (selectLoop_cancel _ _ _ _ _ _ Hb), Hb. simpl.
    now rewrite Close_openContext, withNetworkChangesStore_same.
Qed.

Lemma ListDeviceChanges_cancel (mgr : Manager) (r : ListDeviceChangeRequest)
    (later : list (Event DeviceChange)) (pre rest : list Select)
    (stream : Stream ListDeviceChangeResponse) :
  (ListDeviceChanges mgr r later pre stream).2 = Blocked ->
  openContexts (DeviceChangesStore ((ListDeviceChanges mgr r later pre stream).1.1))
  = S (openContexts (DeviceChangesStore mgr))
  /\ ListDeviceChanges mgr r later (pre ++ SelectDone :: rest) stream
     = (mgr, (ListDeviceChanges mgr r later pre stream).1.2, Returned None).
Proof.
  destruct (unavailable (DeviceChangesStore mgr)) as [err|] eqn:Hav.
  - unfold ListDeviceChanges, Watch, List. rewrite Hav.
    destruct (ListDeviceChangeRequest_Subscribe r); discriminate.
  - rewrite !(ListDeviceChanges_unfold mgr r later _ stream Hav). cbn zeta. simpl.
    intros Hb. rewrite (selectLoop_cancel _ _ _ _ _ _ Hb), Hb. simpl.
    now rewrite Close_openContext, withDeviceChangesStore_same.
Qed.

(** *** GetOpState *)

Lemma drainCache_sent (entries : list (string * Values.TypedValue))
    (stream : Stream OpStateResponse) :
  addr (drainCache entries stream).1 = addr stream
  /\ exists n, sent (drainCache entries stream).1
               = sent stream ++ map cacheResponse (take n entries).
Proof.
  revert stream. induction entries as [|entry rest IH]; intros stream; simpl.
  - split; [reflexivity|]. exists 0%nat. simpl. now rewrite app_nil_r.
  - pose proof (Send_sent stream (cacheResponse entry)) as [Ha Hs].
    destruct (Send stream (cacheResponse entry)) as [stream' [err|]]; simpl in *.
    + split; [assumption|]. exists 0%nat. simpl. now rewrite Hs, app_nil_r.
    + destruct (IH stream') as [Ha' [n Hn]]. split; [congruence|].
      exists (S n). rewrite Hn, Hs. simpl. now rewrite <- app_assoc.
Qed.

Lemma drainCache_healthy (entries : list (string * Values.TypedValue))
    (stream : Stream OpStateResponse) :
  healthy stream = true ->
  exists stream', drainCache entries stream = (stream', None)
                  /\ sent stream' = sent stream ++ map cacheResponse entries
                  /\ healthy stream' = true.
Proof.
  revert stream. induction entries as [|entry rest IH]; intros stream Hh; simpl.
  - exists stream. rewrite app_nil_r. auto.
  - destruct (Send_healthy stream (cacheResponse entry) Hh) as (s1 & Hsend & Hsent & _ & Hh1).
    rewrite Hsend. destruct (IH s1 Hh1) as (s2 & Hrun & Hsent2 & Hh2).
    exists s2. rewrite Hrun, Hsent2, Hsent, <- app_assoc. auto.
Qed.

(** The subscribe loop sends, for the events of the requested device among
    the first few received, one message each, and nothing else. *)
Lemma opStateLoop_sent (d : Dispatcher) (r : OpStateRequest) (streamID : string)
    (sched : list OpStateSelect) (stream : Stream OpStateResponse) :
  exists k, sent (opStateLoop d r streamID sched stream).1.2
            = sent stream
              ++ map eventResponse
                   (List.filter (forDevice (DeviceId r)) (take k (scheduleEvents sched))).
Proof.
  revert stream. induction sched as [|[ev|] sched IH]; intros stream; simpl.
  - exists 0%nat. simpl. now rewrite app_nil_r.
  - destruct (forDevice (DeviceId r) ev) eqn:Hsub;
      pose proof Hsub as Hsub'; unfold forDevice in Hsub'; rewrite Hsub'; simpl.
    + pose proof (Send_sent stream (eventResponse ev)) as [_ Hs].
      destruct (Send stream (eventResponse ev)) as [stream' [err|]]; simpl in *.
      * exists 0%nat. simpl. now rewrite Hs, app_nil_r.
      * destruct (IH stream') as [k Hk]. exists (S k). rewrite Hk, Hs. simpl.
        rewrite Hsub. simpl. now rewrite <- app_assoc.
    + destruct (IH stream) as [k Hk]. exists (S k). rewrite Hk. simpl.
      now rewrite Hsub.
  - exists 0%nat. simpl. now rewrite app_nil_r.
Qed.

Lemma opStateLoop_cancel (d : Dispatcher) (r : OpStateRequest) (streamID : string)
    (pre rest : list OpStateSelect) (stream : Stream OpStateResponse) :
  (opStateLoop d r streamID pre stream).2 = Blocked ->
  (opStateLoop d r streamID pre stream).1.1 = d
  /\ opStateLoop d r streamID (pre ++ OpStateDone :: rest) stream
     = (UnregisterOperationalState d streamID,
        (opStateLoop d r streamID pre stream).1.2, Returned None).
Proof.
  revert stream. induction pre as [|[ev|] pre IH]; intros stream; simpl.
  - auto.
  - destruct (String.eqb (Subject ev) (DeviceId r)); simpl; [|apply IH].
    destruct (Send stream (eventResponse ev)) as [stream' [err|]]; simpl;
      [discriminate | apply IH].
  - discriminate.
Qed.

Lemma unregister_registered (d : Dispatcher) (streamID : string) :
  streamID ∉ d -> UnregisterOperationalState ({[streamID]} ∪ d) streamID = d.
Proof.
  intros Hnin. unfold UnregisterOperationalState. apply set_eq. intros x.
  rewrite elem_of_difference, elem_of_union, elem_of_singleton.
  split; [intros [[->|Hx] Hne]; [contradiction | assumption] |].
  intros Hx. split; [now right | intros ->; contradiction].
Qed.

Section GetOpStateFacts.
Variable rangeOrder : gmap string Values.TypedValue -> list (string * Values.TypedValue).

(** Everything a call of [GetOpState] sends: cache messages for the first
    few entries the drain visits, then event messages for the events of the
    requested device among the first few received. *)
Lemma GetOpState_sent (mgr : Manager) (r : OpStateRequest)
    (sched : list OpStateSelect) (stream : Stream OpStateResponse) :
  exists n k,
    sent (GetOpState rangeOrder mgr r sched stream).1.2
    = sent stream
      ++ map cacheResponse (take n (cacheEntries rangeOrder mgr r))
      ++ map eventResponse
           (List.filter (forDevice (DeviceId r)) (take k (scheduleEvents sched))).
Proof.
  unfold GetOpState, cacheEntries.
  destruct (OperationalStateCache mgr !! DeviceId r) as [deviceCache|].
  2:{ exists 0%nat, 0%nat. simpl. now rewrite app_nil_r. }
  destruct (drainCache_sent (rangeOrder deviceCache) stream) as [_ [n Hn]].
  destruct (drainCache (rangeOrder deviceCache) stream) as [stream1 [err|]]; simpl in Hn.
  { exists n, 0%nat. simpl. now rewrite Hn, app_nil_r. }
  destruct (OpStateRequest_Subscribe r).
  2:{ exists n, 0%nat. simpl. now rewrite Hn, app_nil_r. }
  destruct (RegisterOpState (Dispatcher_ mgr) (diagsStreamID stream))
    as [d [err|]].
  { exists n, 0%nat. simpl. now rewrite Hn, app_nil_r. }
  destruct (opStateLoop_sent d r (diagsStreamID stream) sched stream1) as [k Hk].
  destruct (opStateLoop d r (diagsStreamID stream) sched stream1)
    as [[d' stream2] out]; simpl in *.
  exists n, k. now rewrite Hk, Hn, <- app_assoc.
Qed.

Lemma GetOpState_cancel (mgr : Manager) (r : OpStateRequest)
    (pre rest : list OpStateSelect) (stream : Stream OpStateResponse) :
  (GetOpState rangeOrder mgr r pre stream).2 = Blocked ->
  OpStateRequest_Subscribe r = true
  /\ diagsStreamID stream ∈ Dispatcher_ ((GetOpState rangeOrder mgr r pre stream).1.1)
  /\ (diagsStreamID stream ∉ Dispatcher_ mgr)
  /\ GetOpState rangeOrder mgr r (pre ++ OpStateDone :: rest) stream
     = (mgr, (GetOpState rangeOrder mgr r pre stream).1.2, Returned None).
Proof.
  unfold GetOpState.
  destruct (OperationalStateCache mgr !! DeviceId r) as [deviceCache|]; [|discriminate].
  destruct (drainCache (rangeOrder deviceCache) stream) as [stream1 [err|]]; [discriminate|].
  destruct (OpStateRequest_Subscribe r); [|discriminate].
  unfold RegisterOpState.
  destruct (decide ((diagsStreamID stream) ∈ Dispatcher_ mgr)) as [Hin|Hnin];
    [discriminate|].
  pose proof (opStateLoop_cancel ({[(diagsStreamID stream)]} ∪ Dispatcher_ mgr)
                r (diagsStreamID stream) pre rest stream1) as Hc.
  destruct (opStateLoop _ r _ pre stream1) as [[d' stream2] out]. simpl in *.
  intros Hb. destruct (Hc Hb) as [Hd ->]. subst d'.
  rewrite unregister_registered by assumption.
  rewrite withDispatcher_same. repeat split; auto.
  apply elem_of_union_l. now apply elem_of_singleton.
Qed.

End GetOpStateFacts.

(** *** Properties of the list and watch handlers *)

Lemma selectLoop_healthy_no_error {A M} (accept : A -> bool) (response : A -> M)
    (ch : list A) (sched : list Select) (stream : Stream M) (err : error) :
  healthy stream = true ->
  (selectLoop accept response ch sched stream).2 <> Returned (Some err).
Proof.
  revert ch stream. induction sched as [|[|] sched IH]; intros ch stream Hh; simpl;
    try discriminate.
  destruct ch as [|item ch]; simpl; [discriminate|].
  destruct (accept item); [|now apply IH].
  destruct (Send_healthy stream (response item) Hh) as (s1 & -> & _ & _ & Hh1).
  now apply IH.
Qed.

(** C2. Watch replay completeness.  The streaming surface asks the store
    for replay exactly when [WithoutReplay] is false.  A store watch with
    replay carries the records present at subscription, in creation order,
    before the events that occur afterwards; without replay it carries none
    of the present records.  Accordingly a subscribed [ListDeviceChanges]
    (and [ListNetworkChanges], through its filter) on a healthy stream has
    sent, after [k] receives, the first [k] of: the [N] existing records of
    the key followed by the later ones when replay is on, the later ones
    alone when it is off. *)
Theorem watch_replay_completeness (mgr : Manager) :
  (forall r, replayEnabled (networkWatchOpts r)
             = negb (ListNetworkChangeRequest_WithoutReplay r))
  /\ (forall r, replayEnabled (deviceWatchOpts r)
                = negb (ListDeviceChangeRequest_WithoutReplay r))
  /\ (forall (select : DeviceChange -> bool) later,
        unavailable (DeviceChangesStore mgr) = None ->
        (Watch (DeviceChangesStore mgr) select [WithReplay] later).2
        = Values.Ok
            (map (fun c => {| Event_Type := Created; Object := c |})
                 (List.filter select (records (DeviceChangesStore mgr)))
             ++ List.filter (fun ev => select (Object ev)) later)
        /\ (Watch (DeviceChangesStore mgr) select [] later).2
           = Values.Ok (List.filter (fun ev => select (Object ev)) later))
  /\ (forall r later k stream,
        ListDeviceChangeRequest_Subscribe r = true ->
        unavailable (DeviceChangesStore mgr) = None ->
        healthy stream = true ->
        let key := NewVersionedID (ListDeviceChangeRequest_DeviceID r)
                                  (ListDeviceChangeRequest_DeviceVersion r) in
        let existing := List.filter (hasVersionedID key) (records (DeviceChangesStore mgr)) in
        let live := List.filter (hasVersionedID key) (map Object later) in
        let delivered :=
          (if ListDeviceChangeRequest_WithoutReplay r then [] else existing) ++ live in
        (k <= length delivered)%nat ->
        exists mgr' stream',
          ListDeviceChanges mgr r later (replicate k SelectRecv) stream
          = (mgr', stream', Blocked)
          /\ sent stream' = sent stream ++ map deviceResponse (take k delivered))
  /\ (forall r later k stream,
        ListNetworkChangeRequest_Subscribe r = true ->
        unavailable (NetworkChangesStore mgr) = None ->
        healthy stream = true ->
        let existing := records (NetworkChangesStore mgr) in
        let live := map Object later in
        let delivered :=
          (if ListNetworkChangeRequest_WithoutReplay r then [] else existing) ++ live in
        (k <= length delivered)%nat ->
        exists mgr' stream',
          ListNetworkChanges mgr r later (replicate k SelectRecv) stream
          = (mgr', stream', Blocked)
          /\ sent stream'
             = sent stream
               ++ map networkResponse (List.filter (matchesRequest r) (take k delivered))).
Proof.
  split; [intros r; unfold networkWatchOpts;
          now destruct (ListNetworkChangeRequest_WithoutReplay r)|].
  split; [intros r; unfold deviceWatchOpts;
          now destruct (ListDeviceChangeRequest_WithoutReplay r)|].
  split; [intros select later Hav; unfold Watch; rewrite Hav; split; reflexivity|].
  split.
  - intros r later k stream Hsub Hav Hh key existing live delivered Hk.
    rewrite (ListDeviceChanges_unfold mgr r later _ stream Hav). cbn zeta.
    assert (Hc : deviceCandidates mgr r later = delivered)
      by (unfold deviceCandidates; now rewrite Hsub).
    rewrite Hc.
    destruct (selectLoop_receives (fun _ => true) deviceResponse delivered k stream Hh Hk)
      as (s' & Hrun & Hsent & _ & _).
    rewrite Hrun. simpl. eexists _, s'. split; [reflexivity|].
    now rewrite Hsent, filter_true.
  - intros r later k stream Hsub Hav Hh existing live delivered Hk.
    rewrite (ListNetworkChanges_unfold mgr r later _ stream Hav). cbn zeta.
    assert (Hc : networkCandidates mgr r later = delivered)
      by (unfold networkCandidates; now rewrite Hsub).
    rewrite Hc.
    destruct (selectLoop_receives (matchesRequest r) networkResponse delivered k stream Hh Hk)
      as (s' & Hrun & Hsent & _ & _).
    rewrite Hrun. simpl. eexists _, s'. split; [reflexivity|]. exact Hsent.
Qed.

Lemma watch_replay_completeness_witness :
  (exists mgr' stream',
     ListDeviceChanges Fixture.manager (Fixture.watchDevice1 false) Fixture.laterDevice
       (replicate 3 SelectRecv) (Fixture.stream _) = (mgr', stream', Blocked)
     /\ sent stream'
        = map deviceResponse
            [Fixture.deviceChange "c1" "device-1" "1.0.0";
             Fixture.deviceChange "c3" "device-1" "1.0.0";
             Fixture.deviceChange "c5" "device-1" "1.0.0"])
  /\ (exists mgr' stream',
        ListDeviceChanges Fixture.manager (Fixture.watchDevice1 true) Fixture.laterDevice
          (replicate 1 SelectRecv) (Fixture.stream _) = (mgr', stream', Blocked)
        /\ sent stream' = map deviceResponse [Fixture.deviceChange "c5" "device-1" "1.0.0"]).
Proof.
  split.
  - apply (proj1 (proj2 (proj2 (proj2 (watch_replay_completeness Fixture.manager))))
             (Fixture.watchDevice1 false) Fixture.laterDevice 3%nat (Fixture.stream _));
      [reflexivity | reflexivity | reflexivity | vm_compute; lia].
  - apply (proj1 (proj2 (proj2 (proj2 (watch_replay_completeness Fixture.manager))))
             (Fixture.watchDevice1 true) Fixture.laterDevice 1%nat (Fixture.stream _));
      [reflexivity | reflexivity | reflexivity | vm_compute; lia].
Defined.

(** C7. Wildcard filtering.  The pattern ["foo-*"] matches ["foo-1"] and
    ["foo-bar"] but not ["bar-foo"]; in general the matcher decides anchored
    matching of the whole identifier, ['*'] standing for any run of
    characters.  A call of [ListNetworkChanges] translates its pattern into
    one matcher ([matchesRequest r]) and what it sends are the records that
    matcher accepts among the first few its channel carried; records it
    refuses leave the stream untouched and never end the call with an
    error. *)
Theorem wildcard_filtering (mgr : Manager) (r : ListNetworkChangeRequest)
    (later : list (Event NetworkChange)) (sched : list Select)
    (stream : Stream ListNetworkChangeResponse) :
  unavailable (NetworkChangesStore mgr) = None ->
  (MatchString (MatchWildcardChNameRegexp "foo-*") "foo-1" = true
   /\ MatchString (MatchWildcardChNameRegexp "foo-*") "foo-bar" = true
   /\ MatchString (MatchWildcardChNameRegexp "foo-*") "bar-foo" = false)
  /\ (forall pattern id,
        MatchString (MatchWildcardChNameRegexp pattern) id = true
        <-> Matches (translate pattern) id)
  /\ (exists n,
        sent (ListNetworkChanges mgr r later sched stream).1.2
        = sent stream
          ++ map networkResponse
               (List.filter (matchesRequest r) (take n (networkCandidates mgr r later))))
  /\ (healthy stream = true ->
      forall err, (ListNetworkChanges mgr r later sched stream).2 <> Returned (Some err))
  /\ (forallb (fun c => negb (matchesRequest r c)) (networkCandidates mgr r later) = true ->
      (ListNetworkChanges mgr r later sched stream).1.2 = stream
      /\ forall err, (ListNetworkChanges mgr r later sched stream).2 <> Returned (Some err)).
Proof.
  intros Hav.
  split; [repeat split; reflexivity|].
  split; [intros pattern id; apply MatchString_Matches|].
  rewrite (ListNetworkChanges_unfold mgr r later sched stream Hav). cbn zeta. simpl.
  split; [apply selectLoop_sent|].
  split; [intros Hh err; now apply selectLoop_healthy_no_error|].
  intros Hall.
  destruct (selectLoop_all_refused (matchesRequest r) networkResponse
              (networkCandidates mgr r later) sched stream Hall) as [Hs Ho].
  split; [exact Hs|]. intros err. destruct Ho as [-> | ->]; discriminate.
Qed.

Lemma wildcard_filtering_witness :
  sent (ListNetworkChanges Fixture.manager Fixture.watchFoo Fixture.laterNetwork
          (replicate 4 SelectRecv) (Fixture.stream _)).1.2
  = map networkResponse
      [Fixture.networkChange "foo-1"; Fixture.networkChange "foo-bar";
       Fixture.networkChange "foo-2"]
  /\ (ListNetworkChanges Fixture.manager Fixture.watchNothing Fixture.laterNetwork
        (replicate 5 SelectRecv) (Fixture.stream _)).1.2 = Fixture.stream _.
Proof.
  split.
  - reflexivity.
  - apply (proj2 (proj2 (proj2 (proj2
             (wildcard_filtering Fixture.manager Fixture.watchNothing Fixture.laterNetwork
                (replicate 5 SelectRecv) (Fixture.stream _) eq_refl))))).
    reflexivity.
Defined.

(** C8. Cancellation is not a failure.  Whenever [ListNetworkChanges],
    [ListDeviceChanges] or a subscribed [GetOpState] is waiting in its
    [select] (holding a store context, respectively a dispatcher
    registration) and the cancellation case fires, the call returns [nil],
    sends nothing more, and has given its registration back: the manager is
    as it was before the call. *)
Theorem cancellation_is_not_failure
    (rangeOrder : gmap string Values.TypedValue -> list (string * Values.TypedValue))
    (mgr : Manager) :
  (forall r later pre rest stream,
     (ListNetworkChanges mgr r later pre stream).2 = Blocked ->
     openContexts (NetworkChangesStore ((ListNetworkChanges mgr r later pre stream).1.1))
     = S (openContexts (NetworkChangesStore mgr))
     /\ ListNetworkChanges mgr r later (pre ++ SelectDone :: rest) stream
        = (mgr, (ListNetworkChanges mgr r later pre stream).1.2, Returned None))
  /\ (forall r later pre rest stream,
        (ListDeviceChanges mgr r later pre stream).2 = Blocked ->
        openContexts (DeviceChangesStore ((ListDeviceChanges mgr r later pre stream).1.1))
        = S (openContexts (DeviceChangesStore mgr))
        /\ ListDeviceChanges mgr r later (pre ++ SelectDone :: rest) stream
           = (mgr, (ListDeviceChanges mgr r later pre stream).1.2, Returned None))
  /\ (forall r pre rest stream,
        (GetOpState rangeOrder mgr r pre stream).2 = Blocked ->
        OpStateRequest_Subscribe r = true
        /\ diagsStreamID stream ∈ Dispatcher_ ((GetOpState rangeOrder mgr r pre stream).1.1)
        /\ (diagsStreamID stream ∉ Dispatcher_ mgr)
        /\ GetOpState rangeOrder mgr r (pre ++ OpStateDone :: rest) stream
           = (mgr, (GetOpState rangeOrder mgr r pre stream).1.2, Returned None)).
Proof.
  split; [intros; now apply ListNetworkChanges_cancel|].
  split; [intros; now apply ListDeviceChanges_cancel|].
  intros; now apply GetOpState_cancel.
Qed.

Lemma cancellation_is_not_failure_witness :
  ListNetworkChanges Fixture.manager Fixture.watchFoo Fixture.laterNetwork
    ([SelectRecv; SelectRecv] ++ SelectDone :: [SelectRecv]) (Fixture.stream _)
  = (Fixture.manager,
     (ListNetworkChanges Fixture.manager Fixture.watchFoo Fixture.laterNetwork
        [SelectRecv; SelectRecv] (Fixture.stream _)).1.2,
     Returned None)
  /\ GetOpState Fixture.rangeOrder Fixture.manager (Fixture.opStateOf "device-1" true)
       ([OpStateEvent Fixture.removedOnDevice1] ++ OpStateDone :: [])
       (Fixture.stream _)
     = (Fixture.manager,
        (GetOpState Fixture.rangeOrder Fixture.manager (Fixture.opStateOf "device-1" true)
           [OpStateEvent Fixture.removedOnDevice1] (Fixture.stream _)).1.2,
        Returned None).
Proof.
  split.
  - apply (proj1 (cancellation_is_not_failure Fixture.rangeOrder Fixture.manager)
             Fixture.watchFoo Fixture.laterNetwork [SelectRecv; SelectRecv] [SelectRecv]
             (Fixture.stream _)).
    reflexivity.
  - apply (proj2 (proj2 (cancellation_is_not_failure Fixture.rangeOrder Fixture.manager))
             (Fixture.opStateOf "device-1" true) [OpStateEvent Fixture.removedOnDevice1] []
             (Fixture.stream _)).
    vm_compute. reflexivity.
Defined.

(** *** Properties of GetOpState *)

Lemma cacheResponse_types (entries : list (string * Values.TypedValue)) :
  Forall (fun msg => Type_ msg = Type_NONE) (map cacheResponse entries).
Proof. induction entries; simpl; constructor; auto. Qed.

Lemma eventResponse_types (evs : list OperationalStateEvent) :
  Forall (fun msg => Type_ msg = Type_ADDED) (map eventResponse evs).
Proof. induction evs; simpl; constructor; auto. Qed.

Lemma forDevice_filter (deviceId : string) (evs : list OperationalStateEvent) :
  Forall (fun ev => Subject ev = deviceId) (List.filter (forDevice deviceId) evs).
Proof.
  induction evs as [|ev evs IH]; simpl; [constructor|].
  destruct (forDevice deviceId ev) eqn:Hf; [|assumption].
  constructor; [|assumption]. now apply String.eqb_eq.
Qed.

(** C6. Operational-state Get for an unknown device.  When the cache holds
    no entry for the requested device, [GetOpState] returns the error
    "no Operational State cache available for <device>" and sends nothing.
    For a known device (on a healthy stream) it first sends one message per
    cache entry: the messages of the drain, read as path/value pairs, are
    the entries of the cache, each exactly once, every one of type NONE and
    not marked removed; without [Subscribe] nothing else is sent and the
    call returns [nil]. *)
Theorem GetOpState_unknown_device
    (rangeOrder : gmap string Values.TypedValue -> list (string * Values.TypedValue))
    (mgr : Manager) (r : OpStateRequest) (sched : list OpStateSelect)
    (stream : Stream OpStateResponse) :
  (OperationalStateCache mgr !! DeviceId r = None ->
   GetOpState rangeOrder mgr r sched stream
   = (mgr, stream,
      Returned (Some ("no Operational State cache available for " ++ DeviceId r)%string)))
  /\ (forall deviceCache,
        OperationalStateCache mgr !! DeviceId r = Some deviceCache ->
        rangeOrder deviceCache ≡ₚ map_to_list deviceCache ->
        healthy stream = true ->
        exists drained live,
          sent (GetOpState rangeOrder mgr r sched stream).1.2
          = sent stream ++ drained ++ live
          /\ map (fun msg => (Path (Pathvalue msg), Value (Pathvalue msg))) drained
             ≡ₚ map_to_list deviceCache
          /\ Forall (fun msg => Type_ msg = Type_NONE /\ Removed (Pathvalue msg) = false)
                    drained
          /\ length drained = size deviceCache
          /\ (forall path value,
                deviceCache !! path = Some value
                <-> exists msg, msg ∈ drained
                                /\ Path (Pathvalue msg) = path
                                /\ Value (Pathvalue msg) = value)
          /\ (OpStateRequest_Subscribe r = false ->
              live = []
              /\ (GetOpState rangeOrder mgr r sched stream).2 = Returned None)).
Proof.
  split.
  - intros Hnone. unfold GetOpState. now rewrite Hnone.
  - intros deviceCache Hsome Hperm Hh.
    assert (Hpairs :
              map (fun msg => (Path (Pathvalue msg), Value (Pathvalue msg)))
                  (map cacheResponse (rangeOrder deviceCache))
              = rangeOrder deviceCache).
    { generalize (rangeOrder deviceCache) as entries. clear. intros entries.
      induction entries as [|[path value] entries IH]; simpl;
        [reflexivity | now rewrite IH]. }
    assert (Hrun :
              exists live,
                sent (GetOpState rangeOrder mgr r sched stream).1.2
                = sent stream ++ map cacheResponse (rangeOrder deviceCache) ++ live
                /\ (OpStateRequest_Subscribe r = false ->
                    live = []
                    /\ (GetOpState rangeOrder mgr r sched stream).2 = Returned None)).
    { unfold GetOpState. rewrite Hsome.
      destruct (drainCache_healthy (rangeOrder deviceCache) stream Hh)
        as (stream1 & Hdrain & Hsent & _).
      rewrite Hdrain.
      destruct (OpStateRequest_Subscribe r).
      2:{ exists []. simpl. rewrite Hsent, app_nil_r. auto. }
      destruct (RegisterOpState (Dispatcher_ mgr) (diagsStreamID stream)) as [d [err|]].
      { exists []. simpl. rewrite Hsent, app_nil_r. split; [reflexivity | discriminate]. }
      destruct (opStateLoop_sent d r (diagsStreamID stream) sched stream1) as [k Hk].
      destruct (opStateLoop d r (diagsStreamID stream) sched stream1)
        as [[d' stream2] out]; simpl in *.
      eexists. split; [|discriminate]. now rewrite Hk, Hsent, <- app_assoc. }
    destruct Hrun as (live & Hsent & Hnosub).
    exists (map cacheResponse (rangeOrder deviceCache)), live.
    split; [exact Hsent|].
    split; [now rewrite Hpairs|].
    split.
    { generalize (rangeOrder deviceCache) as entries. clear. intros entries.
      induction entries; simpl; constructor; auto. }
    split; [now rewrite length_map, Hperm, length_map_to_list|].
    split; [|exact Hnosub].
    intros path value. rewrite <- elem_of_map_to_list, <- Hperm. split.
    + intros Hin. exists (cacheResponse (path, value)). split; [|auto].
      apply list_elem_of_fmap. now exists (path, value).
    + intros (msg & Hin & <- & <-).
      apply list_elem_of_fmap in Hin as ([path value] & -> & Hin). exact Hin.
Qed.

Lemma GetOpState_unknown_device_witness :
  GetOpState Fixture.rangeOrder Fixture.manager (Fixture.opStateOf "device-9" false) []
    (Fixture.stream _)
  = (Fixture.manager, Fixture.stream _,
     Returned (Some "no Operational State cache available for device-9"%string))
  /\ (exists drained live,
        sent (GetOpState Fixture.rangeOrder Fixture.manager
                (Fixture.opStateOf "device-1" false) [] (Fixture.stream _)).1.2
        = sent (Fixture.stream OpStateResponse) ++ drained ++ live
        /\ map (fun msg => (Path (Pathvalue msg), Value (Pathvalue msg))) drained
           ≡ₚ map_to_list Fixture.deviceCache
        /\ Forall (fun msg => Type_ msg = Type_NONE /\ Removed (Pathvalue msg) = false)
                  drained
        /\ length drained = size Fixture.deviceCache
        /\ (forall path value,
              Fixture.deviceCache !! path = Some value
              <-> exists msg, msg ∈ drained
                              /\ Path (Pathvalue msg) = path
                              /\ Value (Pathvalue msg) = value)
        /\ (OpStateRequest_Subscribe (Fixture.opStateOf "device-1" false) = false ->
            live = []
            /\ (GetOpState Fixture.rangeOrder Fixture.manager
                  (Fixture.opStateOf "device-1" false) [] (Fixture.stream _)).2
               = Returned None)).
Proof.
  split.
  - apply (proj1 (GetOpState_unknown_device Fixture.rangeOrder Fixture.manager
                    (Fixture.opStateOf "device-9" false) [] (Fixture.stream _))).
    vm_compute. reflexivity.
  - apply (proj2 (GetOpState_unknown_device Fixture.rangeOrder Fixture.manager
                    (Fixture.opStateOf "device-1" false) [] (Fixture.stream _))
             Fixture.deviceCache).
    + vm_compute. reflexivity.
    + reflexivity.
    + reflexivity.
Defined.

(** C9. The subscribe stream of [GetOpState] for a device never carries an
    event of another device: past the cache messages, what it has sent are
    the messages of events whose subject is the requested device, taken in
    order from the events received; every other event was skipped before
    any send. *)
Theorem GetOpState_other_devices_skipped
    (rangeOrder : gmap string Values.TypedValue -> list (string * Values.TypedValue))
    (mgr : Manager) (r : OpStateRequest) (sched : list OpStateSelect)
    (stream : Stream OpStateResponse) :
  exists n evs,
    sent (GetOpState rangeOrder mgr r sched stream).1.2
    = sent stream
      ++ map cacheResponse (take n (cacheEntries rangeOrder mgr r))
      ++ map eventResponse evs
    /\ Forall (fun ev => Subject ev = DeviceId r) evs
    /\ exists k, evs = List.filter (forDevice (DeviceId r)) (take k (scheduleEvents sched)).
Proof.
  destruct (GetOpState_sent rangeOrder mgr r sched stream) as (n & k & Hsent).
  exists n, (List.filter (forDevice (DeviceId r)) (take k (scheduleEvents sched))).
  split; [exact Hsent|]. split; [apply forDevice_filter|]. now exists k.
Qed.

(** C10. Every response of the initial cache drain carries the type NONE and
    every response of the subscribe phase carries the type ADDED, whatever
    the kind (addition, change, removal) of the event behind it. *)
Theorem GetOpState_response_types
    (rangeOrder : gmap string Values.TypedValue -> list (string * Values.TypedValue))
    (mgr : Manager) (r : OpStateRequest) (sched : list OpStateSelect)
    (stream : Stream OpStateResponse) :
  (exists drained live,
     sent (GetOpState rangeOrder mgr r sched stream).1.2 = sent stream ++ drained ++ live
     /\ (exists n, drained = map cacheResponse (take n (cacheEntries rangeOrder mgr r)))
     /\ (exists k, live = map eventResponse
                            (List.filter (forDevice (DeviceId r))
                                         (take k (scheduleEvents sched))))
     /\ Forall (fun msg => Type_ msg = Type_NONE) drained
     /\ Forall (fun msg => Type_ msg = Type_ADDED) live)
  /\ (forall subject path value kind,
        Type_ (eventResponse {| Subject := subject; OpState_Path := path;
                                OpState_Value := value; Kind := kind |}) = Type_ADDED).
Proof.
  split; [|reflexivity].
  destruct (GetOpState_sent rangeOrder mgr r sched stream) as (n & k & Hsent).
  eexists _, _. split; [exact Hsent|].
  split; [now exists n|]. split; [now exists k|].
  split; [apply cacheResponse_types | apply eventResponse_types].
Qed.

(** A removal on the requested device goes out as ADDED; an event of another
    device does not go out at all. *)
Example GetOpState_removed_sent_as_added :
  sent (GetOpState Fixture.rangeOrder Fixture.manager (Fixture.opStateOf "device-1" true)
          [OpStateEvent Fixture.addedOnDevice2; OpStateEvent Fixture.removedOnDevice1]
          (Fixture.stream _)).1.2
  = [cacheResponse ("/system/up"%string, Values.NewTypedValueBool true);
     cacheResponse ("/system/name"%string, Values.NewTypedValueString "leaf-1");
     {| Type_ := Type_ADDED;
        Pathvalue := {| Path := "/system/up";
                        Value := Values.NewTypedValueBool false;
                        Removed := false |} |}].
Proof. vm_compute. reflexivity. Qed.

End DiagsFacts.


(** ** Snapshot identifiers: further properties *)

Module SnapshotExtras.
Import Go Snapshot SnapshotFacts.

Lemma append_assoc (a b c : string) : ((a ++ b) ++ c = a ++ (b ++ c))%string.
Proof.
  induction a as [|x a IH].
  - reflexivity.
  - change (String x ((a ++ b) ++ c) = String x (a ++ (b ++ c)))%string. now rewrite IH.
Qed.

(** The separator is never found past the last byte. *)
Lemma Index_separator_bounds (s : string) :
  -1 <= Index s separator < len s \/ (Index s separator = -1 /\ s = ""%string).
Proof.
  unfold len. induction s as [|c s IH].
  - right. split; reflexivity.
  - left. cbn [Index].
    destruct (HasPrefix (String c s) separator).
    + cbn [String.length]. lia.
    + cbn [String.length].
      destruct IH as [IH | [IH _]];
        destruct (Z.ltb_spec (Index s separator) 0); lia.
Qed.

Lemma drop_bytes_suffix (n : nat) (s : string) :
  exists pre, s = (pre ++ drop_bytes n s)%string.
Proof.
  revert s. induction n as [|n IH]; intros s.
  - exists ""%string. reflexivity.
  - destruct s as [|c s].
    + exists ""%string. reflexivity.
    + destruct (IH s) as [pre Hpre]. exists (String c pre).
      change (String c s = String c (pre ++ drop_bytes n s)%string). now rewrite <- Hpre.
Qed.

(** X1. [GetDeviceID] never panics: on every identifier, with or without a
    separator, the slice is in range, and what it returns is a suffix of the
    identifier. *)
Theorem GetDeviceID_total (i : ID) :
  exists deviceID pre, GetDeviceID i = Some deviceID /\ i = (pre ++ deviceID)%string.
Proof.
  unfold GetDeviceID.
  assert (Hk : 0 <= Index i separator + 1 <= len i).
  { destruct (Index_separator_bounds i) as [H | [H ->]]; [lia|].
    rewrite H. unfold len. simpl. lia. }
  rewrite (slice_from_in_range i _ Hk).
  destruct (drop_bytes_suffix (Z.to_nat (Index i separator + 1)) i) as [pre Hpre].
  eexists _, pre. split; [reflexivity | exact Hpre].
Qed.

Lemma Index_no_separator (s : string) :
  ~ has_separator s -> Index s separator = -1.
Proof.
  unfold has_separator. induction s as [|c s IH]; intros Hs.
  - reflexivity.
  - simpl in Hs. cbn [Index].
    replace (HasPrefix (String c s) separator) with false.
    + rewrite IH by (intros H; apply Hs; now right). reflexivity.
    + symmetry. apply not_true_is_false. rewrite HasPrefix_separator.
      intros [s' H]. apply Hs. left. congruence.
Qed.

(** X2. An identifier that holds no separator is returned whole: the missing
    separator is not an error. *)
Theorem GetDeviceID_without_separator (i : ID) :
  ~ has_separator i -> GetDeviceID i = Some i.
Proof.
  intros Hi. unfold GetDeviceID. rewrite (Index_no_separator i Hi).
  rewrite slice_from_in_range; [reflexivity|]. unfold len. lia.
Qed.

Lemma GetDeviceID_without_separator_witness :
  GetDeviceID "device-1" = Some "device-1"%string.
Proof.
  apply GetDeviceID_without_separator.
  unfold has_separator; simpl; intros H; decompose [or] H; discriminate || contradiction.
Defined.

(** X3. The device identifier is read back whatever it holds, separators
    included (an address with a port, say): only the network identifier has
    to be free of the separator. *)
Theorem GetDeviceID_any_device (networkID deviceID : string) :
  ~ has_separator networkID ->
  GetDeviceID (GetSnapshotID networkID deviceID) = Some deviceID.
Proof.
  intros Hn. unfold GetDeviceID, GetSnapshotID.
  destruct (GetDeviceID_after_prefix networkID deviceID Hn) as [Hi Hd].
  rewrite Hi, slice_from_in_range.
  - unfold len.
    replace (Z.to_nat (Z.of_nat (String.length networkID) + 1))
      with (S (String.length networkID)) by lia.
    now rewrite Hd.
  - unfold len, separator. rewrite !length_append. cbn [String.length]. lia.
Qed.

Lemma GetDeviceID_any_device_witness :
  GetDeviceID (GetSnapshotID "network-1" "localhost:10161") = Some "localhost:10161"%string.
Proof.
  apply GetDeviceID_any_device.
  unfold has_separator; simpl; intros H; decompose [or] H; discriminate || contradiction.
Defined.

(** X4. A separator inside the network identifier breaks the way back:
    [GetDeviceID] cuts at the first separator, so it returns the rest of the
    network identifier together with the device identifier, never the device
    identifier alone. *)
Theorem GetDeviceID_cuts_at_first_separator (head rest deviceID : string) :
  ~ has_separator head ->
  GetDeviceID (GetSnapshotID (head ++ separator ++ rest) deviceID)
  = Some (rest ++ separator ++ deviceID)%string
  /\ GetDeviceID (GetSnapshotID (head ++ separator ++ rest) deviceID) <> Some deviceID.
Proof.
  intros Hh.
  assert (Heq : GetSnapshotID (head ++ separator ++ rest) deviceID
                = GetSnapshotID head (rest ++ separator ++ deviceID)).
  { unfold GetSnapshotID. now rewrite !append_assoc. }
  rewrite Heq, (GetDeviceID_any_device head _ Hh). split; [reflexivity|].
  intros H. injection H as H.
  assert (Hlen := f_equal String.length H).
  unfold separator in Hlen. rewrite !length_append in Hlen. cbn [String.length] in Hlen. lia.
Qed.

Lemma GetDeviceID_cuts_at_first_separator_witness :
  GetDeviceID (GetSnapshotID ("net" ++ separator ++ "work") "device-1")
  = Some ("work" ++ separator ++ "device-1")%string
  /\ GetDeviceID (GetSnapshotID ("net" ++ separator ++ "work") "device-1")
     <> Some "device-1"%string.
Proof.
  apply GetDeviceID_cuts_at_first_separator.
  unfold has_separator; simpl; intros H; decompose [or] H; discriminate || contradiction.
Defined.

(** X5. Snapshot identifiers do not collide: over network identifiers free
    of the separator, two equal snapshot identifiers come from the same
    network and the same device. *)
Theorem GetSnapshotID_injective (networkID networkID' deviceID deviceID' : string) :
  ~ has_separator networkID ->
  ~ has_separator networkID' ->
  GetSnapshotID networkID deviceID = GetSnapshotID networkID' deviceID' ->
  networkID = networkID' /\ deviceID = deviceID'.
Proof.
  unfold GetSnapshotID, has_separator, separator.
  revert networkID'. induction networkID as [|c n IH]; intros [|c' n'] Hn Hn' Heq.
  - split; [reflexivity|]. now injection Heq.
  - exfalso. apply Hn'. simpl. left.
    change (String ":" deviceID = String c' (n' ++ ":" ++ deviceID'))%string in Heq.
    congruence.
  - exfalso. apply Hn. simpl. left.
    change (String c (n ++ ":" ++ deviceID) = String ":" deviceID')%string in Heq.
    congruence.
  - change (String c (n ++ ":" ++ deviceID) = String c' (n' ++ ":" ++ deviceID'))%string in Heq.
    injection Heq as Hc Hrest.
    simpl in Hn, Hn'.
    destruct (IH n') as [-> ->]; auto.
    now subst c'.
Qed.

Lemma GetSnapshotID_injective_witness :
  "network-1"%string = "network-1"%string /\ "device-1"%string = "device-1"%string.
Proof.
  apply (GetSnapshotID_injective "network-1" "network-1" "device-1" "device-1").
  - unfold has_separator; simpl; intros H; decompose [or] H; discriminate || contradiction.
  - unfold has_separator; simpl; intros H; decompose [or] H; discriminate || contradiction.
  - reflexivity.
Defined.

End SnapshotExtras.


(** ** The diagnostic service: further properties *)

Module DiagsExtras.
Import Go Diags DiagsFacts.
Local Open Scope list_scope.

(** *** Streams whose transport fails at a known send *)

Lemma Send_pass {M} (stream : Stream M) (msg : M) (rest : list (option error)) :
  failures stream = None :: rest ->
  Send stream msg
  = ({| addr := addr stream; sent := sent stream ++ [msg]; failures := rest |}, None).
Proof. intros H. unfold Send. now rewrite H. Qed.

Lemma Send_fail {M} (stream : Stream M) (msg : M) (err : error)
    (rest : list (option error)) :
  failures stream = Some err :: rest ->
  Send stream msg
  = ({| addr := addr stream; sent := sent stream; failures := rest |}, Some err).
Proof. intros H. unfold Send. now rewrite H. Qed.

Section SelectLoopExtras.
Context {A M : Type} (accept : A -> bool) (response : A -> M).

(** With enough receives on a healthy stream the loop drains the channel,
    meets its end and returns [nil]. *)
Lemma selectLoop_drain (ch : list A) (k : nat) (stream : Stream M) :
  healthy stream = true ->
  (length ch < k)%nat ->
  exists stream',
    selectLoop accept response ch (replicate k SelectRecv) stream
    = (stream', Returned None)
    /\ sent stream' = sent stream ++ map response (List.filter accept ch).
Proof.
  revert k stream. induction ch as [|item ch IH]; intros k stream Hh Hk.
  - destruct k as [|k]; [simpl in Hk; lia|]. simpl.
    exists stream. now rewrite app_nil_r.
  - destruct k as [|k]; [simpl in Hk; lia|]. simpl in Hk.
    assert (Hk' : (length ch < k)%nat) by lia. simpl.
    destruct (accept item) eqn:Hacc.
    + destruct (Send_healthy stream (response item) Hh) as (s1 & Hsend & Hsent & _ & Hh1).
      rewrite Hsend. destruct (IH k s1 Hh1 Hk') as (s2 & Hrun & Hsent2).
      exists s2. rewrite Hrun, Hsent2, Hsent. simpl. now rewrite <- app_assoc.
    + destruct (IH k stream Hh Hk') as (s2 & Hrun & Hsent2).
      exists s2. now rewrite Hrun, Hsent2.
Qed.

(** When the transport fails the send number [j] (counting from zero), the
    loop returns that error, having sent the first [j] accepted items. *)
Lemma selectLoop_send_failure (ch : list A) (j k : nat) (err : error)
    (rest : list (option error)) (stream : Stream M) :
  failures stream = replicate j None ++ Some err :: rest ->
  (j < length (List.filter accept ch))%nat ->
  (length ch <= k)%nat ->
  exists stream',
    selectLoop accept response ch (replicate k SelectRecv) stream
    = (stream', Returned (Some err))
    /\ sent stream' = sent stream ++ map response (take j (List.filter accept ch))
    /\ failures stream' = rest.
Proof.
  revert j k stream. induction ch as [|item ch IH]; intros j k stream Hf Hj Hk.
  - simpl in Hj. lia.
  - destruct k as [|k]; [simpl in Hk; lia|]. simpl in Hk.
    assert (Hk' : (length ch <= k)%nat) by lia. simpl in *.
    destruct (accept item) eqn:Hacc.
    + destruct j as [|j]; simpl in Hf.
      * rewrite (Send_fail stream _ err rest Hf). eexists. split; [reflexivity|].
        simpl. now rewrite app_nil_r.
      * rewrite (Send_pass stream _ _ Hf).
        assert (Hj' : (j < length (List.filter accept ch))%nat) by (simpl in Hj; lia).
        destruct (IH j k {| addr := addr stream;
                            sent := sent stream ++ [response item];
                            failures := replicate j None ++ Some err :: rest |}
                    eq_refl Hj' Hk') as (s2 & Hrun & Hsent2 & Hf2).
        exists s2. rewrite Hrun, Hsent2. simpl. now rewrite <- app_assoc.
    + now apply IH.
Qed.

End SelectLoopExtras.

(** *** The list and watch handlers *)

Lemma ListNetworkChanges_unavailable (mgr : Manager) (r : ListNetworkChangeRequest)
    (later : list (Event NetworkChange)) (sched : list Select)
    (stream : Stream ListNetworkChangeResponse) (err : error) :
  unavailable (NetworkChangesStore mgr) = Some err ->
  ListNetworkChanges mgr r later sched stream = (mgr, stream, Returned (Some err)).
Proof.
  intros Hav. unfold ListNetworkChanges, Watch, List. rewrite Hav.
  now destruct (ListNetworkChangeRequest_Subscribe r).
Qed.

Lemma ListDeviceChanges_unavailable (mgr : Manager) (r : ListDeviceChangeRequest)
    (later : list (Event DeviceChange)) (sched : list Select)
    (stream : Stream ListDeviceChangeResponse) (err : error) :
  unavailable (DeviceChangesStore mgr) = Some err ->
  ListDeviceChanges mgr r later sched stream = (mgr, stream, Returned (Some err)).
Proof.
  intros Hav. unfold ListDeviceChanges, Watch, List. rewrite Hav.
  now destruct (ListDeviceChangeRequest_Subscribe r).
Qed.

(** X6. The deferred [ctx.Close()] covers every way out of
    [ListNetworkChanges] and [ListDeviceChanges]: whenever either returns
    (end of the channel, cancellation, a failed send, a store error) the
    manager is exactly as before the call; while it waits, exactly one more
    context is open on its store and nothing else differs. *)
Theorem list_handlers_close_their_context (mgr : Manager) :
  (forall r later sched stream,
     match (ListNetworkChanges mgr r later sched stream).2 with
     | Returned _ => (ListNetworkChanges mgr r later sched stream).1.1 = mgr
     | Blocked =>
         (ListNetworkChanges mgr r later sched stream).1.1
         = withNetworkChangesStore mgr (openContext (NetworkChangesStore mgr))
     end)
  /\ (forall r later sched stream,
        match (ListDeviceChanges mgr r later sched stream).2 with
        | Returned _ => (ListDeviceChanges mgr r later sched stream).1.1 = mgr
        | Blocked =>
            (ListDeviceChanges mgr r later sched stream).1.1
            = withDeviceChangesStore mgr (openContext (DeviceChangesStore mgr))
        end).
Proof.
  split; intros r later sched stream.
  - destruct (unavailable (NetworkChangesStore mgr)) as [err|] eqn:Hav.
    + now rewrite (ListNetworkChanges_unavailable mgr r later sched stream err Hav).
    + rewrite (ListNetworkChanges_unfold mgr r later sched stream Hav). cbn zeta. simpl.
      destruct (selectLoop _ _ _ _ _).2; simpl; [|reflexivity].
      now rewrite Close_openContext, withNetworkChangesStore_same.
  - destruct (unavailable (DeviceChangesStore mgr)) as [err|] eqn:Hav.
    + now rewrite (ListDeviceChanges_unavailable mgr r later sched stream err Hav).
    + rewrite (ListDeviceChanges_unfold mgr r later sched stream Hav). cbn zeta. simpl.
      destruct (selectLoop _ _ _ _ _).2; simpl; [|reflexivity].
      now rewrite Close_openContext, withDeviceChangesStore_same.
Qed.

(** X7. Without [Subscribe] the handlers list and finish: given enough
    receives on a healthy stream, [ListNetworkChanges] sends the records of
    the store that match the pattern, [ListDeviceChanges] those of the
    requested device and version, each in store order, and returns [nil];
    neither [WithoutReplay] nor anything that happens later in the store
    has a part in it. *)
Theorem list_without_subscribe_drains (mgr : Manager) :
  (forall r later k stream,
     ListNetworkChangeRequest_Subscribe r = false ->
     unavailable (NetworkChangesStore mgr) = None ->
     healthy stream = true ->
     (length (records (NetworkChangesStore mgr)) < k)%nat ->
     exists stream',
       ListNetworkChanges mgr r later (replicate k SelectRecv) stream
       = (mgr, stream', Returned None)
       /\ sent stream'
          = sent stream
            ++ map networkResponse
                 (List.filter (matchesRequest r) (records (NetworkChangesStore mgr))))
  /\ (forall r later k stream,
        ListDeviceChangeRequest_Subscribe r = false ->
        unavailable (DeviceChangesStore mgr) = None ->
        healthy stream = true ->
        (length (records (DeviceChangesStore mgr)) < k)%nat ->
        exists stream',
          ListDeviceChanges mgr r later (replicate k SelectRecv) stream
          = (mgr, stream', Returned None)
          /\ sent stream'
             = sent stream
               ++ map deviceResponse
                    (List.filter
                       (hasVersionedID
                          (NewVersionedID (ListDeviceChangeRequest_DeviceID r)
                                          (ListDeviceChangeRequest_DeviceVersion r)))
                       (records (DeviceChangesStore mgr)))).
Proof.
  split; intros r later k stream Hsub Hav Hh Hk.
  - rewrite (ListNetworkChanges_unfold mgr r later _ stream Hav). cbn zeta.
    unfold networkCandidates. rewrite Hsub.
    destruct (selectLoop_drain (matchesRequest r) networkResponse _ k stream Hh Hk)
      as (s' & Hrun & Hsent).
    rewrite Hrun. simpl. exists s'.
    now rewrite Close_openContext, withNetworkChangesStore_same.
  - rewrite (ListDeviceChanges_unfold mgr r later _ stream Hav). cbn zeta.
    unfold deviceCandidates. rewrite Hsub.
    set (existing := List.filter _ (records (DeviceChangesStore mgr))).
    assert (Hk' : (length existing < k)%nat).
    { pose proof (filter_length_le
                    (hasVersionedID
                       (NewVersionedID (ListDeviceChangeRequest_DeviceID r)
                                       (ListDeviceChangeRequest_DeviceVersion r)))
                    (records (DeviceChangesStore mgr))).
      subst existing. lia. }
    destruct (selectLoop_drain (fun _ => true) deviceResponse existing k stream Hh Hk')
      as (s' & Hrun & Hsent).
    rewrite Hrun. simpl. exists s'.
    rewrite Close_openContext, withDeviceChangesStore_same, Hsent, filter_true. auto.
Qed.

Lemma list_without_subscribe_drains_witness :
  exists stream',
    ListNetworkChanges Fixture.manager
      {| ChangeID := "foo-*";
         ListNetworkChangeRequest_Subscribe := false;
         ListNetworkChangeRequest_WithoutReplay := true |}
      Fixture.laterNetwork (replicate 4 SelectRecv) (Fixture.stream _)
    = (Fixture.manager, stream', Returned None)
    /\ sent stream'
       = map networkResponse [Fixture.networkChange "foo-1"; Fixture.networkChange "foo-bar"].
Proof.
  apply (proj1 (list_without_subscribe_drains Fixture.manager)
           {| ChangeID := "foo-*";
              ListNetworkChangeRequest_Subscribe := false;
              ListNetworkChangeRequest_WithoutReplay := true |}
           Fixture.laterNetwork 4%nat (Fixture.stream _));
    [reflexivity | reflexivity | reflexivity | vm_compute; lia].
Defined.

(** X8. A failed send ends a list or watch call with the error of the
    transport: when the send number [j] fails, the handler has sent the
    first [j] of the changes it accepts, returns that error, and has closed
    its store context all the same. *)
Theorem list_handlers_return_send_error (mgr : Manager) :
  (forall r later j k err rest stream,
     unavailable (NetworkChangesStore mgr) = None ->
     failures stream = replicate j None ++ Some err :: rest ->
     (j < length (List.filter (matchesRequest r) (networkCandidates mgr r later)))%nat ->
     (length (networkCandidates mgr r later) <= k)%nat ->
     exists stream',
       ListNetworkChanges mgr r later (replicate k SelectRecv) stream
       = (mgr, stream', Returned (Some err))
       /\ sent stream'
          = sent stream
            ++ map networkResponse
                 (take j (List.filter (matchesRequest r) (networkCandidates mgr r later))))
  /\ (forall r later j k err rest stream,
        unavailable (DeviceChangesStore mgr) = None ->
        failures stream = replicate j None ++ Some err :: rest ->
        (j < length (deviceCandidates mgr r later))%nat ->
        (length (deviceCandidates mgr r later) <= k)%nat ->
        exists stream',
          ListDeviceChanges mgr r later (replicate k SelectRecv) stream
          = (mgr, stream', Returned (Some err))
          /\ sent stream'
             = sent stream ++ map deviceResponse (take j (deviceCandidates mgr r later))).
Proof.
  split; intros r later j k err rest stream Hav Hf Hj Hk.
  - rewrite (ListNetworkChanges_unfold mgr r later _ stream Hav). cbn zeta.
    destruct (selectLoop_send_failure (matchesRequest r) networkResponse _ j k err rest
                stream Hf Hj Hk) as (s' & Hrun & Hsent & _).
    rewrite Hrun. simpl. exists s'.
    now rewrite Close_openContext, withNetworkChangesStore_same.
  - rewrite (ListDeviceChanges_unfold mgr r later _ stream Hav). cbn zeta.
    rewrite <- (filter_true (deviceCandidates mgr r later)) in Hj.
    destruct (selectLoop_send_failure (fun _ => true) deviceResponse _ j k err rest
                stream Hf Hj Hk) as (s' & Hrun & Hsent & _).
    rewrite Hrun. simpl. exists s'.
    rewrite Close_openContext, withDeviceChangesStore_same, Hsent, filter_true. auto.
Qed.

Lemma list_handlers_return_send_error_witness :
  exists stream',
    ListDeviceChanges Fixture.manager (Fixture.watchDevice1 false) Fixture.laterDevice
      (replicate 3 SelectRecv)
      (FailingStreams.failingAt _ 1)
    = (Fixture.manager, stream', Returned (Some "transport is closing"%string))
    /\ sent stream' = map deviceResponse [Fixture.deviceChange "c1" "device-1" "1.0.0"].
Proof.
  apply (proj2 (list_handlers_return_send_error Fixture.manager)
           (Fixture.watchDevice1 false) Fixture.laterDevice 1%nat 3%nat
           "transport is closing"%string [] (FailingStreams.failingAt _ 1));
    [reflexivity | reflexivity | vm_compute; lia | vm_compute; lia].
Defined.

(** *** GetOpState *)

Lemma drainCache_pass (entries : list (string * Values.TypedValue))
    (rest : list (option error)) (stream : Stream OpStateResponse) :
  failures stream = replicate (length entries) None ++ rest ->
  exists stream',
    drainCache entries stream = (stream', None)
    /\ sent stream' = sent stream ++ map cacheResponse entries
    /\ failures stream' = rest
    /\ addr stream' = addr stream.
Proof.
  revert stream. induction entries as [|entry entries IH]; intros stream Hf; simpl in *.
  - exists stream. now rewrite app_nil_r.
  - rewrite (Send_pass stream _ _ Hf).
    destruct (IH {| addr := addr stream;
                    sent := sent stream ++ [cacheResponse entry];
                    failures := replicate (length entries) None ++ rest |} eq_refl)
      as (s2 & Hrun & Hsent & Hf2 & Ha).
    exists s2. rewrite Hrun, Hsent. simpl. rewrite <- app_assoc. auto.
Qed.

Lemma drainCache_fail (entries : list (string * Values.TypedValue)) (j : nat)
    (err : error) (rest : list (option error)) (stream : Stream OpStateResponse) :
  failures stream = replicate j None ++ Some err :: rest ->
  (j < length entries)%nat ->
  exists stream',
    drainCache entries stream = (stream', Some err)
    /\ sent stream' = sent stream ++ map cacheResponse (take j entries).
Proof.
  revert j stream. induction entries as [|entry entries IH]; intros j stream Hf Hj;
    simpl in Hj; [lia|].
  destruct j as [|j]; simpl in *.
  - rewrite (Send_fail stream _ err rest Hf). eexists. split; [reflexivity|].
    simpl. now rewrite app_nil_r.
  - rewrite (Send_pass stream _ _ Hf).
    assert (Hj' : (j < length entries)%nat) by lia.
    destruct (IH j {| addr := addr stream;
                      sent := sent stream ++ [cacheResponse entry];
                      failures := replicate j None ++ Some err :: rest |} eq_refl Hj')
      as (s2 & Hrun & Hsent).
    exists s2. rewrite Hrun, Hsent. simpl. now rewrite <- app_assoc.
Qed.

Lemma opStateLoop_fail (d : Dispatcher) (r : OpStateRequest) (streamID : string)
    (evs : list OperationalStateEvent) (more : list OpStateSelect) (j : nat)
    (err : error) (rest : list (option error)) (stream : Stream OpStateResponse) :
  failures stream = replicate j None ++ Some err :: rest ->
  (j < length (List.filter (forDevice (DeviceId r)) evs))%nat ->
  exists stream',
    opStateLoop d r streamID (map OpStateEvent evs ++ more) stream
    = (d, stream', Returned (Some err))
    /\ sent stream'
       = sent stream ++ map eventResponse (take j (List.filter (forDevice (DeviceId r)) evs)).
Proof.
  revert j stream. induction evs as [|ev evs IH]; intros j stream Hf Hj;
    simpl in Hj; [lia|]. simpl.
  destruct (forDevice (DeviceId r) ev) eqn:Hsub;
    pose proof Hsub as Hsub'; unfold forDevice in Hsub'; rewrite Hsub'; simpl.
  - destruct j as [|j]; simpl in *.
    + rewrite (Send_fail stream _ err rest Hf). eexists. split; [reflexivity|].
      simpl. now rewrite app_nil_r.
    + rewrite (Send_pass stream _ _ Hf).
      assert (Hj' : (j < length (List.filter (forDevice (DeviceId r)) evs))%nat) by lia.
      destruct (IH j {| addr := addr stream;
                        sent := sent stream ++ [eventResponse ev];
                        failures := replicate j None ++ Some err :: rest |} eq_refl Hj')
        as (s2 & Hrun & Hsent).
      exists s2. rewrite Hrun, Hsent. simpl. now rewrite <- app_assoc.
  - now apply IH.
Qed.

(** What the subscribe loop leaves of the registration table: the table
    without the listener after a cancellation, the table as it was in any
    other case. *)
Lemma opStateLoop_dispatcher (d : Dispatcher) (r : OpStateRequest) (streamID : string)
    (sched : list OpStateSelect) (stream : Stream OpStateResponse) :
  match (opStateLoop d r streamID sched stream).2 with
  | Returned None =>
      (opStateLoop d r streamID sched stream).1.1 = UnregisterOperationalState d streamID
  | _ => (opStateLoop d r streamID sched stream).1.1 = d
  end.
Proof.
  revert stream. induction sched as [|[ev|] sched IH]; intros stream; simpl; auto.
  destruct (String.eqb (Subject ev) (DeviceId r)); simpl; [|apply IH].
  destruct (Send stream (eventResponse ev)) as [stream' [err|]]; simpl; [reflexivity|].
  apply IH.
Qed.

Lemma opStateLoop_healthy (d : Dispatcher) (r : OpStateRequest) (streamID : string)
    (evs : list OperationalStateEvent) (stream : Stream OpStateResponse) :
  healthy stream = true ->
  exists stream',
    opStateLoop d r streamID (map OpStateEvent evs) stream = (d, stream', Blocked)
    /\ sent stream'
       = sent stream ++ map eventResponse (List.filter (forDevice (DeviceId r)) evs).
Proof.
  revert stream. induction evs as [|ev evs IH]; intros stream Hh; simpl.
  - exists stream. now rewrite app_nil_r.
  - destruct (forDevice (DeviceId r) ev) eqn:Hsub;
      pose proof Hsub as Hsub'; unfold forDevice in Hsub'; rewrite Hsub'; simpl.
    + destruct (Send_healthy stream (eventResponse ev) Hh) as (s1 & Hsend & Hsent & _ & Hh1).
      rewrite Hsend. destruct (IH s1 Hh1) as (s2 & Hrun & Hsent2).
      exists s2. rewrite Hrun, Hsent2, Hsent, <- app_assoc. auto.
    + now apply IH.
Qed.

Lemma replicate_plus {A} (a b : nat) (x : A) :
  replicate (a + b) x = replicate a x ++ replicate b x.
Proof. induction a as [|a IH]; simpl; [reflexivity | now rewrite IH]. Qed.

Section GetOpStateExtras.
Variable rangeOrder : gmap string Values.TypedValue -> list (string * Values.TypedValue).

(** X9. Without [Subscribe], [GetOpState] is a plain read: it always
    returns, whatever happens on the listener side is of no consequence, and
    the manager (the dispatcher's registration table included) is left
    untouched. *)
Theorem GetOpState_without_subscribe (mgr : Manager) (r : OpStateRequest)
    (sched : list OpStateSelect) (stream : Stream OpStateResponse) :
  OpStateRequest_Subscribe r = false ->
  GetOpState rangeOrder mgr r sched stream = GetOpState rangeOrder mgr r [] stream
  /\ (GetOpState rangeOrder mgr r sched stream).1.1 = mgr
  /\ (GetOpState rangeOrder mgr r sched stream).2 <> Blocked.
Proof.
  intros Hsub. unfold GetOpState.
  destruct (OperationalStateCache mgr !! DeviceId r) as [deviceCache|];
    [|repeat split; discriminate].
  destruct (drainCache (rangeOrder deviceCache) stream) as [stream1 [err|]];
    [repeat split; discriminate|].
  rewrite Hsub. repeat split; discriminate.
Qed.

(** X10. A send that fails during the initial drain ends the call at once:
    when the send number [j] fails, [GetOpState] returns that error having
    sent the first [j] cache entries of the range, with or without
    [Subscribe], and registers no listener. *)
Theorem GetOpState_drain_failure (mgr : Manager) (r : OpStateRequest)
    (sched : list OpStateSelect) (stream : Stream OpStateResponse)
    (deviceCache : gmap string Values.TypedValue) (j : nat) (err : error)
    (rest : list (option error)) :
  OperationalStateCache mgr !! DeviceId r = Some deviceCache ->
  failures stream = replicate j None ++ Some err :: rest ->
  (j < length (rangeOrder deviceCache))%nat ->
  exists stream',
    GetOpState rangeOrder mgr r sched stream = (mgr, stream', Returned (Some err))
    /\ sent stream' = sent stream ++ map cacheResponse (take j (rangeOrder deviceCache)).
Proof.
  intros Hc Hf Hj. unfold GetOpState. rewrite Hc.
  destruct (drainCache_fail (rangeOrder deviceCache) j err rest stream Hf Hj)
    as (s' & Hrun & Hsent).
  rewrite Hrun. now exists s'.
Qed.

(** X11. What [GetOpState] does to the manager.  Only the registration table
    can differ.  After a return with [nil] the manager is exactly as before
    the call; while the call waits, its listener (and nothing else) has been
    added; after a return with an error the table is either as before or
    still holds the listener the call added. *)
Theorem GetOpState_registration (mgr : Manager) (r : OpStateRequest)
    (sched : list OpStateSelect) (stream : Stream OpStateResponse) :
  (GetOpState rangeOrder mgr r sched stream).1.1
  = withDispatcher mgr (Dispatcher_ ((GetOpState rangeOrder mgr r sched stream).1.1))
  /\ match (GetOpState rangeOrder mgr r sched stream).2 with
     | Returned None => (GetOpState rangeOrder mgr r sched stream).1.1 = mgr
     | Blocked =>
         (diagsStreamID stream ∉ Dispatcher_ mgr)
         /\ Dispatcher_ ((GetOpState rangeOrder mgr r sched stream).1.1)
            = {[diagsStreamID stream]} ∪ Dispatcher_ mgr
     | Returned (Some _) =>
         (GetOpState rangeOrder mgr r sched stream).1.1 = mgr
         \/ ((diagsStreamID stream ∉ Dispatcher_ mgr)
             /\ Dispatcher_ ((GetOpState rangeOrder mgr r sched stream).1.1)
                = {[diagsStreamID stream]} ∪ Dispatcher_ mgr)
     end.
Proof.
  unfold GetOpState.
  destruct (OperationalStateCache mgr !! DeviceId r) as [deviceCache|]; simpl.
  2:{ rewrite withDispatcher_same. auto. }
  destruct (drainCache (rangeOrder deviceCache) stream) as [stream1 [err|]]; simpl.
  { rewrite withDispatcher_same. auto. }
  destruct (OpStateRequest_Subscribe r); simpl.
  2:{ rewrite withDispatcher_same. auto. }
  unfold RegisterOpState.
  destruct (decide (diagsStreamID stream ∈ Dispatcher_ mgr)) as [Hin|Hnin]; simpl.
  { rewrite withDispatcher_same. auto. }
  pose proof (opStateLoop_dispatcher ({[diagsStreamID stream]} ∪ Dispatcher_ mgr) r
                (diagsStreamID stream) sched stream1) as Hd.
  destruct (opStateLoop _ r _ sched stream1) as [[d' stream2] out]. simpl in *.
  split; [destruct mgr; reflexivity|].
  destruct out as [[err|]|]; subst d'.
  - right. auto.
  - rewrite unregister_registered by assumption. apply withDispatcher_same.
  - auto.
Qed.

(** X12. A failed send in the subscribe phase returns the error without
    unregistering: when, past the drain, the send number [j] of the live
    phase fails, [GetOpState] returns that error having sent the whole cache
    and the first [j] events of the device, and its listener is still in the
    dispatcher's table (only the cancellation case unregisters it). *)
Theorem GetOpState_send_failure_keeps_listener (mgr : Manager) (r : OpStateRequest)
    (evs : list OperationalStateEvent) (more : list OpStateSelect)
    (stream : Stream OpStateResponse)
    (deviceCache : gmap string Values.TypedValue) (j : nat) (err : error)
    (rest : list (option error)) :
  OperationalStateCache mgr !! DeviceId r = Some deviceCache ->
  OpStateRequest_Subscribe r = true ->
  diagsStreamID stream ∉ Dispatcher_ mgr ->
  failures stream
  = replicate (length (rangeOrder deviceCache) + j) None ++ Some err :: rest ->
  (j < length (List.filter (forDevice (DeviceId r)) evs))%nat ->
  exists mgr' stream',
    GetOpState rangeOrder mgr r (map OpStateEvent evs ++ more) stream
    = (mgr', stream', Returned (Some err))
    /\ diagsStreamID stream ∈ Dispatcher_ mgr'
    /\ mgr' = withDispatcher mgr ({[diagsStreamID stream]} ∪ Dispatcher_ mgr)
    /\ sent stream'
       = sent stream
         ++ map cacheResponse (rangeOrder deviceCache)
         ++ map eventResponse (take j (List.filter (forDevice (DeviceId r)) evs)).
Proof.
  intros Hc Hsub Hnin Hf Hj. unfold GetOpState. rewrite Hc.
  rewrite replicate_plus, <- app_assoc in Hf.
  destruct (drainCache_pass (rangeOrder deviceCache) _ stream Hf)
    as (s1 & Hdrain & Hsent1 & Hf1 & Ha1).
  rewrite Hdrain, Hsub. unfold RegisterOpState.
  destruct (decide (diagsStreamID stream ∈ Dispatcher_ mgr)) as [Hin|_]; [contradiction|].
  destruct (opStateLoop_fail ({[diagsStreamID stream]} ∪ Dispatcher_ mgr) r
              (diagsStreamID stream) evs more j err rest s1 Hf1 Hj) as (s2 & Hrun & Hsent2).
  rewrite Hrun. eexists _, s2. split; [reflexivity|].
  split; [simpl; apply elem_of_union_l; now apply elem_of_singleton|].
  split; [reflexivity|]. now rewrite Hsent2, Hsent1, <- app_assoc.
Qed.

(** X13. No event of the device is lost or reordered: on a healthy stream a
    subscribed [GetOpState] that has received the events [evs] has sent the
    whole cache and then one message for every event of [evs] whose subject
    is the requested device, in the order received, and is waiting for
    more. *)
Theorem GetOpState_forwards_every_event (mgr : Manager) (r : OpStateRequest)
    (evs : list OperationalStateEvent) (stream : Stream OpStateResponse)
    (deviceCache : gmap string Values.TypedValue) :
  OperationalStateCache mgr !! DeviceId r = Some deviceCache ->
  OpStateRequest_Subscribe r = true ->
  diagsStreamID stream ∉ Dispatcher_ mgr ->
  healthy stream = true ->
  exists mgr' stream',
    GetOpState rangeOrder mgr r (map OpStateEvent evs) stream = (mgr', stream', Blocked)
    /\ sent stream'
       = sent stream
         ++ map cacheResponse (rangeOrder deviceCache)
         ++ map eventResponse (List.filter (forDevice (DeviceId r)) evs).
Proof.
  intros Hc Hsub Hnin Hh. unfold GetOpState. rewrite Hc.
  destruct (drainCache_healthy (rangeOrder deviceCache) stream Hh)
    as (s1 & Hdrain & Hsent1 & Hh1).
  rewrite Hdrain, Hsub. unfold RegisterOpState.
  destruct (decide (diagsStreamID stream ∈ Dispatcher_ mgr)) as [Hin|_]; [contradiction|].
  destruct (opStateLoop_healthy ({[diagsStreamID stream]} ∪ Dispatcher_ mgr) r
              (diagsStreamID stream) evs s1 Hh1) as (s2 & Hrun & Hsent2).
  rewrite Hrun. eexists _, s2. split; [reflexivity|].
  now rewrite Hsent2, Hsent1, <- app_assoc.
Qed.

End GetOpStateExtras.

Lemma GetOpState_without_subscribe_witness :
  (GetOpState Fixture.rangeOrder Fixture.manager (Fixture.opStateOf "device-1" false)
     [OpStateEvent Fixture.removedOnDevice1] (Fixture.stream _)).1.1 = Fixture.manager.
Proof.
  apply (GetOpState_without_subscribe Fixture.rangeOrder Fixture.manager
           (Fixture.opStateOf "device-1" false) [OpStateEvent Fixture.removedOnDevice1]
           (Fixture.stream _)).
  reflexivity.
Defined.

Lemma GetOpState_drain_failure_witness :
  exists stream',
    GetOpState Fixture.rangeOrder Fixture.manager (Fixture.opStateOf "device-1" true) []
      (FailingStreams.failingAt _ 1)
    = (Fixture.manager, stream', Returned (Some "transport is closing"%string))
    /\ sent stream' = [cacheResponse ("/system/up"%string, Values.NewTypedValueBool true)].
Proof.
  apply (GetOpState_drain_failure Fixture.rangeOrder Fixture.manager
           (Fixture.opStateOf "device-1" true) [] (FailingStreams.failingAt _ 1)
           Fixture.deviceCache 1%nat "transport is closing"%string []).
  - vm_compute. reflexivity.
  - reflexivity.
  - vm_compute. lia.
Defined.

Lemma GetOpState_send_failure_keeps_listener_witness :
  exists mgr' stream',
    GetOpState Fixture.rangeOrder Fixture.manager (Fixture.opStateOf "device-1" true)
      (map OpStateEvent [Fixture.addedOnDevice2; Fixture.removedOnDevice1] ++ [OpStateDone])
      (FailingStreams.failingAt _ 2)
    = (mgr', stream', Returned (Some "transport is closing"%string))
    /\ diagsStreamID (FailingStreams.failingAt OpStateResponse 2) ∈ Dispatcher_ mgr'.
Proof.
  destruct (GetOpState_send_failure_keeps_listener Fixture.rangeOrder Fixture.manager
              (Fixture.opStateOf "device-1" true)
              [Fixture.addedOnDevice2; Fixture.removedOnDevice1] [OpStateDone]
              (FailingStreams.failingAt _ 2)
              Fixture.deviceCache 0%nat "transport is closing"%string [])
    as (mgr' & stream' & Hrun & Hin & _ & _).
  - vm_compute. reflexivity.
  - reflexivity.
  - vm_compute. intros H. discriminate H.
  - reflexivity.
  - vm_compute. lia.
  - exists mgr', stream'. split; [exact Hrun | exact Hin].
Defined.

Lemma GetOpState_forwards_every_event_witness :
  exists mgr' stream',
    GetOpState Fixture.rangeOrder Fixture.manager (Fixture.opStateOf "device-1" true)
      (map OpStateEvent [Fixture.addedOnDevice2; Fixture.removedOnDevice1])
      (Fixture.stream _)
    = (mgr', stream', Blocked)
    /\ sent stream'
       = [] ++ map cacheResponse (Fixture.rangeOrder Fixture.deviceCache)
         ++ map eventResponse [Fixture.removedOnDevice1].
Proof.
  apply (GetOpState_forwards_every_event Fixture.rangeOrder Fixture.manager
           (Fixture.opStateOf "device-1" true)
           [Fixture.addedOnDevice2; Fixture.removedOnDevice1] (Fixture.stream _)
           Fixture.deviceCache).
  - vm_compute. reflexivity.
  - reflexivity.
  - vm_compute. intros H. discriminate H.
  - reflexivity.
Defined.

End DiagsExtras.


(** ** The cluster controller: properties *)

Module RunnerFacts.
Import Go Runner.
Local Open Scope list_scope.

Lemma scanAll_app (lines logs : list string) : scanAll lines logs = logs ++ lines.
Proof.
  revert logs. induction lines as [|text lines IH]; intros logs; simpl.
  - now rewrite app_nil_r.
  - now rewrite IH, <- app_assoc.
Qed.

(** The logs of a pod are the scanned lines, in order. *)
Lemma getLogs_lines (c : ClusterController) (pod : Pod) :
  getLogs c pod = PodsGetLogs (kubeclient c) (ClusterId c) (Name pod).
Proof.
  unfold getLogs. destruct (PodsGetLogs _ _ _) as [lines|err]; [|reflexivity].
  now rewrite scanAll_app.
Qed.

Section LogsFacts.
Variable IsNotFound : error -> bool.
Variable c : ClusterController.

(** The loop fills the slots from [i] on, one per pod, and leaves the slots
    before [i] alone. *)
Lemma getAllLogsFrom_ok_iff (pods : list Pod) (done allLogs : list (list string)) :
  getAllLogsFrom c (length done) pods (done ++ replicate (length pods) []) = Values.Ok allLogs
  <-> exists filled,
        allLogs = done ++ filled
        /\ Forall2 (fun pod logs => getLogs c pod = Values.Ok logs) pods filled.
Proof.
  revert done. induction pods as [|pod pods IH]; intros done; simpl.
  - split.
    + intros H. injection H as <-. exists []. split; [reflexivity | constructor].
    + intros (filled & -> & HF). inversion HF; subst. reflexivity.
  - destruct (getLogs c pod) as [logs|err] eqn:Hlogs.
    + replace (<[length done := logs]> (done ++ [] :: replicate (length pods) []))
        with ((done ++ [logs]) ++ replicate (length pods) []).
      2:{ rewrite <- (Nat.add_0_r (length done)) at 1.
          rewrite insert_app_r. simpl. now rewrite <- app_assoc. }
      replace (S (length done)) with (length (done ++ [logs]))
        by (rewrite length_app; simpl; lia).
      rewrite IH. split.
      * intros (filled & -> & HF). exists (logs :: filled).
        rewrite <- app_assoc. split; [reflexivity|]. now constructor.
      * intros (filled & -> & HF). inversion HF as [|? l ? ls Hl HF']; subst.
        assert (l = logs) by congruence. subst l.
        exists ls. rewrite <- app_assoc. auto.
    + split; [discriminate|].
      intros (filled & _ & HF). inversion HF; subst. congruence.
Qed.

(** X14. [getAllLogs] is all or nothing and keeps the order of the pods: it
    succeeds exactly when the logs of every pod can be read, and then returns
    one entry per pod, the entry at each position being the logs of the pod
    at that position. *)
Theorem getAllLogs_ok_iff (pods : list Pod) (allLogs : list (list string)) :
  getAllLogs c pods = Values.Ok allLogs
  <-> Forall2 (fun pod logs => getLogs c pod = Values.Ok logs) pods allLogs.
Proof.
  unfold getAllLogs.
  rewrite (getAllLogsFrom_ok_iff pods [] allLogs). simpl. split.
  - now intros (filled & -> & HF).
  - intros HF. now exists allLogs.
Qed.

Lemma getAllLogsFrom_first_error (before after : list Pod) (bad : Pod) (err : error)
    (i : nat) (allLogs : list (list string)) :
  Forall (fun pod => exists logs, getLogs c pod = Values.Ok logs) before ->
  getLogs c bad = Values.Err err ->
  getAllLogsFrom c i (before ++ bad :: after) allLogs = Values.Err err.
Proof.
  intros Hok Hbad. revert i allLogs.
  induction Hok as [|pod before [logs Hlogs] _ IH]; intros i allLogs; simpl.
  - now rewrite Hbad.
  - rewrite Hlogs. apply IH.
Qed.

(** X15. [getAllLogs] stops at the first pod whose logs cannot be read and
    returns the error of that pod, with no logs at all, whatever the pods
    after it would give. *)
Theorem getAllLogs_first_error (before after : list Pod) (bad : Pod) (err : error) :
  Forall (fun pod => exists logs, getLogs c pod = Values.Ok logs) before ->
  getLogs c bad = Values.Err err ->
  getAllLogs c (before ++ bad :: after) = Values.Err err
  /\ Values.valueOf (getAllLogs c (before ++ bad :: after)) = None.
Proof.
  intros Hok Hbad. unfold getAllLogs.
  rewrite (getAllLogsFrom_first_error before after bad err _ _ Hok Hbad). auto.
Qed.

(** X16. A successful [GetLogs] never comes back empty-handed, and a pod
    named like the resource takes precedence over pods labelled with it:
    the result holds either the logs of that one pod, or (when no pod has
    that name) the logs of every labelled pod, of which there is at least
    one. *)
Theorem GetLogs_ok (resourceId : string) (allLogs : list (list string)) :
  GetLogs IsNotFound c resourceId = Values.Ok allLogs ->
  allLogs <> []
  /\ ((exists pod logs,
         PodsGet (kubeclient c) (ClusterId c) resourceId = Values.Ok pod
         /\ getLogs c pod = Values.Ok logs
         /\ allLogs = [logs])
      \/ (exists err items,
            PodsGet (kubeclient c) (ClusterId c) resourceId = Values.Err err
            /\ IsNotFound err = true
            /\ PodsList (kubeclient c) (ClusterId c) ("resource=" ++ resourceId)%string
               = Values.Ok items
            /\ items <> []
            /\ Forall2 (fun pod logs => getLogs c pod = Values.Ok logs) items allLogs)).
Proof.
  unfold GetLogs.
  destruct (PodsGet (kubeclient c) (ClusterId c) resourceId) as [pod|err].
  - intros H. apply getAllLogs_ok_iff in H.
    inversion H as [|? logs ? ls Hl HF]; subst. inversion HF; subst.
    split; [discriminate|]. left. eauto.
  - destruct (IsNotFound err) eqn:Hnf; simpl; [|discriminate].
    destruct (PodsList (kubeclient c) (ClusterId c) _) as [items|err'] eqn:Hlist;
      [|discriminate].
    destruct items as [|pod items]; simpl; [discriminate|].
    intros H. apply getAllLogs_ok_iff in H.
    split; [inversion H; discriminate|].
    right. exists err, (pod :: items). repeat split; auto; try discriminate.
Qed.

(** X17. The errors of [GetLogs].  A failure of the lookup by name other than
    "not found" is returned as it is, without the label lookup having a say;
    when no pod has the name and none carries the label, the error is
    "unknown test resource <id>". *)
Theorem GetLogs_errors (resourceId : string) (err : error) :
  PodsGet (kubeclient c) (ClusterId c) resourceId = Values.Err err ->
  (IsNotFound err = false -> GetLogs IsNotFound c resourceId = Values.Err err)
  /\ (IsNotFound err = true ->
      PodsList (kubeclient c) (ClusterId c) ("resource=" ++ resourceId)%string = Values.Ok [] ->
      GetLogs IsNotFound c resourceId
      = Values.Err ("unknown test resource " ++ resourceId)%string).
Proof.
  intros Hget. unfold GetLogs. rewrite Hget. split.
  - intros ->. reflexivity.
  - intros -> ->. reflexivity.
Qed.

End LogsFacts.

Lemma getAllLogs_first_error_witness :
  getAllLogs testCluster ([{| Name := "pod-1" |}] ++ {| Name := "broken" |} :: [{| Name := "pod-2" |}])
  = Values.Err "stream closed"%string
  /\ Values.valueOf
       (getAllLogs testCluster
          ([{| Name := "pod-1" |}] ++ {| Name := "broken" |} :: [{| Name := "pod-2" |}]))
     = None.
Proof.
  apply (getAllLogs_first_error testCluster [{| Name := "pod-1" |}] [{| Name := "pod-2" |}]
           {| Name := "broken" |} "stream closed"%string).
  - constructor; [|constructor]. eexists. reflexivity.
  - reflexivity.
Defined.

Lemma GetLogs_ok_witness :
  [["test-1-a"; "done"]; ["test-1-b"; "done"]]%string <> [].
Proof.
  apply (GetLogs_ok testIsNotFound testCluster "test-1"
           [["test-1-a"; "done"]; ["test-1-b"; "done"]]%string).
  reflexivity.
Defined.

Lemma GetLogs_errors_witness :
  GetLogs testIsNotFound testCluster "nothing-here"
  = Values.Err "unknown test resource nothing-here"%string.
Proof.
  apply (GetLogs_errors testIsNotFound testCluster "nothing-here" notFound);
    reflexivity.
Defined.

Section RunTestsFacts.
Variable K : Type.
Variable streamLogs : K -> Pod -> K * option error.
Variable getStatus : K -> Pod -> K * (string * Z * option error).

(** X18. A zero timeout means ten minutes: [RunTests] never starts the tests
    with a zero timeout, so what [startTests] would do with one has no
    bearing on it, and a call with timeout zero is a call with 600 s. *)
Theorem RunTests_default_timeout
    (startTests startTests' : K -> string -> list string -> Z -> K * Values.result Pod error)
    (k : K) (testId : string) (tests : list string) (timeout : Z) :
  (forall k testId tests timeout,
     timeout <> 0 -> startTests k testId tests timeout = startTests' k testId tests timeout) ->
  RunTests K startTests streamLogs getStatus k testId tests timeout
  = RunTests K startTests' streamLogs getStatus k testId tests timeout
  /\ RunTests K startTests streamLogs getStatus k testId tests 0
     = RunTests K startTests streamLogs getStatus k testId tests 600000000000.
Proof.
  intros Hagree. unfold RunTests. split; [|reflexivity].
  destruct (Z.eqb_spec timeout 0) as [->|Hne].
  - rewrite Hagree; [reflexivity | discriminate].
  - now rewrite Hagree.
Qed.

End RunTestsFacts.

Lemma RunTests_default_timeout_witness :
  RunTests nat (fun k _ _ _ => (S k, Values.Ok {| Name := "job" |}))
    (fun k _ => (k, None)) (fun k _ => (k, ("passed"%string, 0, None)))
    0%nat "test-1" ["smoke"%string] 0
  = RunTests nat
      (fun k _ _ timeout =>
         if timeout =? 0 then (k, Values.Err "no timeout"%string)
         else (S k, Values.Ok {| Name := "job" |}))
      (fun k _ => (k, None)) (fun k _ => (k, ("passed"%string, 0, None)))
      0%nat "test-1" ["smoke"%string] 0.
Proof.
  apply (RunTests_default_timeout nat (fun k _ => (k, None))
           (fun k _ => (k, ("passed"%string, 0, None)))
           (fun k _ _ _ => (S k, Values.Ok {| Name := "job" |}))
           (fun k _ _ timeout =>
              if timeout =? 0 then (k, Values.Err "no timeout"%string)
              else (S k, Values.Ok {| Name := "job" |}))
           0%nat "test-1" ["smoke"%string] 0).
  intros k testId tests timeout Hne.
  destruct (Z.eqb_spec timeout 0); [contradiction | reflexivity].
Defined.

End RunnerFacts.

(** ** The changes command: properties *)

Module CliFacts.
Import Go Cli.
Local Open Scope list_scope.

Section RunChangesFacts.
Variables C Conn : Type.
Variable getConnection : Values.result Conn error.
Variable GetChanges : Conn -> ChangesRequest -> Values.result (list (Recv C)) error.
Variable Execute : C -> string.

Lemma recvLoop_changes (changes : list C) (rest : list (Recv C)) (output : list string) :
  recvLoop C Execute (map RecvChange changes ++ rest) output
  = recvLoop C Execute rest (output ++ map Execute changes).
Proof.
  revert output. induction changes as [|change changes IH]; intros output; simpl.
  - now rewrite app_nil_r.
  - now rewrite IH, <- app_assoc.
Qed.

(** X19. The changes command prints what it receives until the stream ends:
    every change received before the end of the stream is rendered, in the
    order received; at [io.EOF] the command returns [nil], at any other
    error it returns that error, and in both cases whatever the stream would
    have answered afterwards is not read. *)
Theorem runChangesCommand_prints_until_end (args : list string) (output : list string)
    (clientConnection : Conn) (changes : list C) (rest : list (Recv C)) :
  getConnection = Values.Ok clientConnection ->
  (GetChanges clientConnection (changesRequest args)
   = Values.Ok (map RecvChange changes ++ RecvEOF :: rest) ->
   runChangesCommand C Conn getConnection GetChanges Execute args output
   = (output ++ map Execute changes, Diags.Returned None))
  /\ (forall err,
        GetChanges clientConnection (changesRequest args)
        = Values.Ok (map RecvChange changes ++ RecvError err :: rest) ->
        runChangesCommand C Conn getConnection GetChanges Execute args output
        = (output ++ map Execute changes, Diags.Returned (Some err))).
Proof.
  intros Hconn. unfold runChangesCommand. rewrite Hconn. split.
  - intros ->. now rewrite recvLoop_changes.
  - intros err ->. now rewrite recvLoop_changes.
Qed.

End RunChangesFacts.

Lemma runChangesCommand_prints_until_end_witness :
  runChangesCommand string unit (Values.Ok tt)
    (fun _ _ => Values.Ok (map RecvChange ["c1"; "c2"]%string ++ RecvEOF :: [RecvChange "c3"%string]))
    (fun id => ("CHANGE: " ++ id)%string) [] []
  = ([] ++ map (fun id => ("CHANGE: " ++ id)%string) ["c1"; "c2"]%string, Diags.Returned None).
Proof.
  apply (proj1 (runChangesCommand_prints_until_end string unit (Values.Ok tt)
                  (fun _ _ => Values.Ok (map RecvChange ["c1"; "c2"]%string
                                         ++ RecvEOF :: [RecvChange "c3"%string]))
                  (fun id => ("CHANGE: " ++ id)%string) [] [] tt ["c1"; "c2"]%string
                  [RecvChange "c3"%string] eq_refl)).
  reflexivity.
Defined.

(** X20. The command asks for what it was given: for every argument list
    the command accepts (at most one argument), the change identifiers of
    the request are the arguments. *)
Theorem changesRequest_of_accepted_args (args : list string) :
  Args getGetChangesCommand args = true ->
  changesRequest args = {| ChangeIDs := args |}.
Proof.
  unfold getGetChangesCommand, MaximumNArgs, changesRequest. simpl.
  destruct args as [|arg0 [|arg1 args]]; simpl; intros H;
    [reflexivity | reflexivity | discriminate].
Qed.

Lemma changesRequest_of_accepted_args_witness :
  changesRequest ["change-1"%string] = {| ChangeIDs := ["change-1"%string] |}.
Proof. apply changesRequest_of_accepted_args. reflexivity. Defined.

End CliFacts.
